(** * AI model catalog reconciliation: the classifier, the fetch/transform
      step and the three-way merge of [list_all_ai_models.py].

    The script is embedded shallowly.  Python values that can reach the
    code (parsed JSON of the persisted catalog, descriptors built by the
    raw fetchers) are an inductive type [value]; a Python [dict] is an
    insertion-ordered association list; an exception is a [Raise] in a
    small error monad.  Strings are byte strings (UTF-8), so that the
    lexicographic order on bytes is the order of code points; case
    mapping is the ASCII one.  JSON numbers are integers.

    What the script prints is left out, and so are [load_envs] (the
    environment is taken as it is once [.env] is loaded) and the JSON
    encoder: a run is described by the list it hands to [json.dump]. *)

From Stdlib Require Import List String Ascii ZArith NArith Bool Lia.
From Stdlib Require Import Sorted Permutation.
Import ListNotations.

Local Open Scope string_scope.
Local Open Scope list_scope.

(** ** Python primitives *)

Module Py.

(** *** Exceptions and the error monad *)

Inductive exn : Type :=
| KeyError (k : string)
| TypeError
| AttributeError
| APIError (name : string).

Inductive result (A : Type) : Type :=
| Ok (a : A)
| Raise (e : exn).

Arguments Ok {A} a.
Arguments Raise {A} e.

Definition bind {A B : Type} (m : result A) (k : A -> result B) : result B :=
  match m with
  | Ok a => k a
  | Raise e => Raise e
  end.

Notation "x <- m ;; k" := (bind m (fun x => k))
  (at level 61, m at next level, right associativity).

Fixpoint mapM {A B : Type} (f : A -> result B) (l : list A) : result (list B) :=
  match l with
  | [] => Ok []
  | x :: l' => y <- f x ;; ys <- mapM f l' ;; Ok (y :: ys)
  end.

(** *** Strings *)

Definition is_upper (c : ascii) : bool :=
  let n := N_of_ascii c in ((65 <=? n) && (n <=? 90))%N.

Definition is_lower (c : ascii) : bool :=
  let n := N_of_ascii c in ((97 <=? n) && (n <=? 122))%N.

Definition to_lower (c : ascii) : ascii :=
  if is_upper c then ascii_of_N (N_of_ascii c + 32) else c.

Definition to_upper (c : ascii) : ascii :=
  if is_lower c then ascii_of_N (N_of_ascii c - 32) else c.

(** [s.lower()] *)
Fixpoint lower (s : string) : string :=
  match s with
  | EmptyString => EmptyString
  | String c s' => String (to_lower c) (lower s')
  end.

(** [s.startswith(p)] *)
Definition startswith (p s : string) : bool := prefix p s.

(** [sub in s] *)
Fixpoint contains (sub s : string) : bool :=
  prefix sub s ||
  match s with
  | EmptyString => false
  | String _ s' => contains sub s'
  end.

(** [s.replace(old, new)] for a non-empty [old]: occurrences are replaced
    from left to right and do not overlap.  [skip] counts the characters
    of a matched occurrence that are still to be dropped. *)
Fixpoint replace_from (old new s : string) (skip : nat) : string :=
  match s with
  | EmptyString => EmptyString
  | String c s' =>
      match skip with
      | S k => replace_from old new s' k
      | O =>
          if prefix old s
          then new ++ replace_from old new s' (String.length old - 1)
          else String c (replace_from old new s' 0)
      end
  end.

Definition replace (old new s : string) : string := replace_from old new s 0.

(** [s.title()]: the first cased character of every run of cased
    characters is upper-cased, the others lower-cased. *)
Fixpoint title_from (prev_cased : bool) (s : string) : string :=
  match s with
  | EmptyString => EmptyString
  | String c s' =>
      if is_lower c then
        String (if prev_cased then c else to_upper c) (title_from true s')
      else if is_upper c then
        String (if prev_cased then to_lower c else c) (title_from true s')
      else String c (title_from false s')
  end.

Definition title (s : string) : string := title_from false s.

(** The text of [s] up to its first newline: what [.*] can cross. *)
Fixpoint upto_newline (s : string) : string :=
  match s with
  | EmptyString => EmptyString
  | String c s' =>
      if (N_of_ascii c =? 10)%N then EmptyString else String c (upto_newline s')
  end.

Definition strip_prefix (p s : string) : option string :=
  if prefix p s
  then Some (substring (String.length p) (String.length s - String.length p) s)
  else None.

(** [re.search(r'exp.*(pro|advanced)', s)], as a truth value. *)
Fixpoint re_search_exp_pro_advanced (s : string) : bool :=
  match strip_prefix "exp" s with
  | Some rest =>
      let line := upto_newline rest in
      contains "pro" line || contains "advanced" line
  | None => false
  end ||
  match s with
  | EmptyString => false
  | String _ s' => re_search_exp_pro_advanced s'
  end.

(** *** Values *)

#[warnings="-register-all"]
Inductive value : Type :=
| VNone
| VBool (b : bool)
| VInt (n : Z)
| VStr (s : string)
| VList (l : list value)
| VDict (d : list (string * value)).

(** A [dict] with string keys, in insertion order. *)
Definition dict : Type := list (string * value).

Fixpoint dict_get {A : Type} (k : string) (d : list (string * A)) : option A :=
  match d with
  | [] => None
  | (k', v) :: d' => if String.eqb k k' then Some v else dict_get k d'
  end.

Definition dict_mem {A : Type} (k : string) (d : list (string * A)) : bool :=
  match dict_get k d with Some _ => true | None => false end.

(** [d[k] = v]: an existing key keeps its place, a new key goes last. *)
Fixpoint dict_set {A : Type} (k : string) (v : A) (d : list (string * A))
  : list (string * A) :=
  match d with
  | [] => [(k, v)]
  | (k', v') :: d' =>
      if String.eqb k k' then (k', v) :: d' else (k', v') :: dict_set k v d'
  end.

(** [{**d, **e}]: the entries of [e] written into [d] one after another. *)
Definition dict_update {A : Type} (d e : list (string * A)) : list (string * A) :=
  fold_left (fun acc kv => dict_set (fst kv) (snd kv) acc) e d.

(** [d.get(k, default)] *)
Definition dict_get_default (k : string) (default : value) (d : dict) : value :=
  match dict_get k d with Some v => v | None => default end.

(** Truth value of an object. *)
Definition truthy (v : value) : bool :=
  match v with
  | VNone => false
  | VBool b => b
  | VInt n => negb (n =? 0)%Z
  | VStr s => negb (String.eqb s "")
  | VList l => match l with [] => false | _ => true end
  | VDict d => match d with [] => false | _ => true end
  end.

(** [a or b] *)
Definition py_or (a b : value) : value := if truthy a then a else b.

(** [a == b] *)
Fixpoint py_eq (a b : value) {struct a} : bool :=
  match a, b with
  | VNone, VNone => true
  | VBool x, VBool y => Bool.eqb x y
  | VBool x, VInt y => (Z.b2z x =? y)%Z
  | VInt x, VBool y => (x =? Z.b2z y)%Z
  | VInt x, VInt y => (x =? y)%Z
  | VStr x, VStr y => String.eqb x y
  | VList x, VList y =>
      (fix go (x y : list value) {struct x} : bool :=
         match x, y with
         | [], [] => true
         | a' :: x', b' :: y' => py_eq a' b' && go x' y'
         | _, _ => false
         end) x y
  | VDict x, VDict y =>
      Nat.eqb (List.length x) (List.length y) &&
      (fix go (x : list (string * value)) {struct x} : bool :=
         match x with
         | [] => true
         | (k, v) :: x' =>
             match dict_get k y with
             | Some w => py_eq v w
             | None => false
             end && go x'
         end) x
  | _, _ => false
  end.

(** [a < b]; ordering is defined between numbers, between strings and
    between lists, and raises [TypeError] otherwise. *)
Fixpoint py_lt (a b : value) {struct a} : result bool :=
  match a, b with
  | VBool x, VBool y => Ok (Z.b2z x <? Z.b2z y)%Z
  | VBool x, VInt y => Ok (Z.b2z x <? y)%Z
  | VInt x, VBool y => Ok (x <? Z.b2z y)%Z
  | VInt x, VInt y => Ok (x <? y)%Z
  | VStr x, VStr y => Ok (String.ltb x y)
  | VList x, VList y =>
      (fix go (x y : list value) {struct x} : result bool :=
         match x, y with
         | [], [] => Ok false
         | [], _ :: _ => Ok true
         | _ :: _, [] => Ok false
         | a' :: x', b' :: y' => if py_eq a' b' then go x' y' else py_lt a' b'
         end) x y
  | _, _ => Raise TypeError
  end.

(** [(a1, b1) < (a2, b2)]: the first position where the items differ
    decides. *)
Definition tuple_lt (k1 k2 : value * value) : result bool :=
  if negb (py_eq (fst k1) (fst k2)) then py_lt (fst k1) (fst k2)
  else if negb (py_eq (snd k1) (snd k2)) then py_lt (snd k1) (snd k2)
  else Ok false.

(** [d[k]] on a dict. *)
Definition dict_item (d : dict) (k : string) : result value :=
  match dict_get k d with
  | Some v => Ok v
  | None => Raise (KeyError k)
  end.

(** The receiver of a [str] method: anything else has no such attribute. *)
Definition as_str (v : value) : result string :=
  match v with
  | VStr s => Ok s
  | _ => Raise AttributeError
  end.

(** [hash(v)] succeeds. *)
Definition hashable (v : value) : bool :=
  match v with
  | VList _ | VDict _ => false
  | _ => true
  end.

(** [for m in v]: the items a value yields when iterated. *)
Fixpoint chars (s : string) : list value :=
  match s with
  | EmptyString => []
  | String c s' => VStr (String c EmptyString) :: chars s'
  end.

Definition py_iter (v : value) : result (list value) :=
  match v with
  | VList l => Ok l
  | VStr s => Ok (chars s)
  | VDict d => Ok (map (fun kv => VStr (fst kv)) d)
  | _ => Raise TypeError
  end.

(** [v == s] for a string [s], and [v in strs]. *)
Definition eq_str (v : value) (s : string) : bool := py_eq v (VStr s).

Definition in_strs (v : value) (strs : list string) : bool :=
  existsb (eq_str v) strs.

End Py.

Import Py.

(** ** The heuristic classifier *)

Definition FLAGS : list string :=
  ["multiModal"; "canSearch"; "canGenerateImages"; "isAdvancedReasoner";
   "canAccessInternet"; "supportsReasoning"].

(** Default capabilities for a new model. *)
Definition default_capabilities : dict :=
  [("multiModal", VBool false);
   ("canSearch", VBool false);
   ("canGenerateImages", VBool false);
   ("isAdvancedReasoner", VBool false);
   ("canAccessInternet", VBool false);
   ("supportsReasoning", VBool true)].

Definition set_flag (k : string) (b : bool) (caps : dict) : dict :=
  dict_set k (VBool b) caps.

Definition google_rules (id_l name_l : string) (api_data : dict) (caps : dict)
  : dict :=
  let caps :=
    if contains "gemini" id_l || contains "gemini" name_l then
      let caps := set_flag "multiModal" true caps in
      let caps :=
        if contains "pro" id_l || contains "ultra" id_l
           || re_search_exp_pro_advanced id_l
           || contains "gemini-1.5" id_l || contains "gemini-2.5" id_l
        then set_flag "isAdvancedReasoner" true caps else caps in
      if contains "flash" id_l
         && negb (contains "2.5" id_l || contains "exp" id_l)
      then set_flag "isAdvancedReasoner" false caps else caps
    else caps in
  let caps :=
    if contains "imagen" id_l then
      set_flag "supportsReasoning" false
        (set_flag "canGenerateImages" true (set_flag "multiModal" true caps))
    else caps in
  let supported_actions := dict_get_default "supportedActions" (VList []) api_data in
  let caps :=
    if negb (truthy supported_actions)
       && negb (contains "gemini" id_l || contains "imagen" id_l)
    then set_flag "supportsReasoning" false caps else caps in
  if contains "gemini" id_l
     && (contains "1.5" id_l || contains "2.0" id_l || contains "2.5" id_l
         || contains "exp" id_l || contains "preview" id_l)
  then
    let caps := set_flag "canAccessInternet" true (set_flag "canSearch" true caps) in
    if contains "2.5" id_l || contains "pro" id_l
    then set_flag "canGenerateImages" true caps else caps
  else caps.

Definition openai_rules (id_l : string) (caps : dict) : dict :=
  let caps :=
    if startswith "gpt-3.5" id_l then
      set_flag "isAdvancedReasoner" false (set_flag "multiModal" false caps)
    else if startswith "gpt-4o" id_l then
      set_flag "isAdvancedReasoner"
        (negb (contains "mini" id_l || contains "nano" id_l))
        (set_flag "multiModal" true caps)
    else if startswith "gpt-4" id_l then
      set_flag "isAdvancedReasoner" true
        (set_flag "multiModal"
           (contains "gpt-4o" id_l || contains "4.1" id_l || contains "4o" id_l)
           caps)
    else if startswith "gpt-5" id_l then
      set_flag "isAdvancedReasoner" true (set_flag "multiModal" false caps)
    else if startswith "o" id_l then
      set_flag "isAdvancedReasoner" (true && negb (contains "mini" id_l))
        (set_flag "multiModal" true caps)
    else caps in
  if startswith "dall-e" id_l || startswith "gpt-image" id_l then
    set_flag "supportsReasoning" false
      (set_flag "canGenerateImages" true (set_flag "multiModal" true caps))
  else caps.

Definition anthropic_rules (id_l : string) (caps : dict) : dict :=
  let caps :=
    if contains "claude-3" id_l then set_flag "multiModal" true caps else caps in
  let caps :=
    if contains "opus" id_l || contains "claude-3-5-sonnet" id_l
       || contains "claude-3.7-sonnet" id_l
    then set_flag "isAdvancedReasoner" true caps
    else if contains "sonnet" id_l && contains "claude-3" id_l
    then set_flag "isAdvancedReasoner" true caps
    else if contains "haiku" id_l || contains "instant" id_l
    then set_flag "isAdvancedReasoner" false caps
    else caps in
  if contains "claude-3-5-sonnet" id_l || contains "claude-3.7-sonnet" id_l then
    set_flag "canGenerateImages" true
      (set_flag "canAccessInternet" true (set_flag "canSearch" true caps))
  else caps.

(** The provider branches of the classifier. *)
Definition provider_rules (provider_short_id : value) (id_l name_l : string)
  (api_data : dict) (caps : dict) : dict :=
  if eq_str provider_short_id "google" then google_rules id_l name_l api_data caps
  else if eq_str provider_short_id "openai" then openai_rules id_l caps
  else if eq_str provider_short_id "anthropic" then anthropic_rules id_l caps
  else caps.

(** The final normalization: no reasoning support, no advanced reasoning. *)
Definition normalize (caps : dict) : result dict :=
  r <- dict_item caps "supportsReasoning" ;;
  Ok (if negb (truthy r) then set_flag "isAdvancedReasoner" false caps else caps).

Definition apply_heuristics_for_new_model
  (model_id display_name provider_short_id : value) (api_data : option dict)
  : result dict :=
  let api_data := match api_data with Some d => d | None => [] end in
  model_id_lower <- (s <- as_str model_id ;; Ok (lower s)) ;;
  name_lower <- (s <- as_str (py_or display_name model_id) ;; Ok (lower s)) ;;
  normalize
    (provider_rules provider_short_id model_id_lower name_lower api_data
       default_capabilities).

(** ** Fetching and transforming *)

(** The middle dot of the re-cased image family name, in UTF-8. *)
Definition DALL_E : string :=
  " DALL" ++ String (ascii_of_N 194) (String (ascii_of_N 183) "E").

(** The display name of a candidate: a readable name is built when the
    API only supplied an identifier. *)
Definition derive_name (provider_short_id : string)
  (model_id display_name_from_api : value) : result value :=
  if String.eqb provider_short_id "openai" then
    mid <- as_str model_id ;;
    if negb (startswith "dall-e" mid) && py_eq model_id display_name_from_api
    then
      let name := title (replace "_" " " (replace "-" " " mid)) in
      let name := if contains "Gpt" name then replace "Gpt" "GPT" name else name in
      let name :=
        if contains " Dall E" name then replace " Dall E" DALL_E name else name in
      Ok (VStr name)
    else Ok display_name_from_api
  else if String.eqb provider_short_id "google" then
    mid <- as_str model_id ;;
    if startswith "models/" mid then
      dn <- as_str display_name_from_api ;;
      Ok (VStr (title (replace "-" " " (replace "models/" "" dn))))
    else Ok display_name_from_api
  else Ok display_name_from_api.

(** One pass of the loop body: raw descriptor to candidate record. *)
Definition transform (provider_name provider_short_id : string)
  (api_model_data : dict) : result dict :=
  let model_id :=
    dict_get_default "id" (VStr ("unknown_" ++ provider_short_id ++ "_id"))
      api_model_data in
  let display_name_from_api :=
    dict_get_default "displayName" model_id api_model_data in
  name <- derive_name provider_short_id model_id display_name_from_api ;;
  caps <- apply_heuristics_for_new_model model_id name (VStr provider_short_id)
            (Some api_model_data) ;;
  Ok (dict_update
        [("id", model_id);
         ("provider", VStr provider_name);
         ("providerId", VStr provider_short_id);
         ("name", name)]
        caps).

(** The loop over the raw descriptors, inside the [try]: an exception
    leaves the loop and what was appended so far is what is returned. *)
Fixpoint transform_loop (provider_name provider_short_id : string)
  (raw_api_models : list dict) : list dict :=
  match raw_api_models with
  | [] => []
  | api_model_data :: rest =>
      match transform provider_name provider_short_id api_model_data with
      | Ok schema_entry =>
          schema_entry :: transform_loop provider_name provider_short_id rest
      | Raise _ => []
      end
  end.

Definition fetch_and_transform_models (fetch_function : unit -> result (list dict))
  (provider_name provider_short_id : string) : list dict :=
  match fetch_function tt with
  | Ok raw_api_models => transform_loop provider_name provider_short_id raw_api_models
  | Raise _ => []
  end.

(** ** The run *)

(** What the script reads from its surroundings: the process
    environment (after [load_dotenv]), the catalog file, the provider
    SDKs, the answer of the image request of the probe, and whether the
    output file can be written. *)

(** The file [models.json]. *)
Inductive file_state : Type :=
| Missing
| Unreadable
| Parsed (data : value).

(** The model objects of the SDKs, as far as the raw fetchers read them. *)
Record google_model : Type := {
  g_name : value;
  g_display_name : value;
  g_description : value;
  g_version : value;
  g_supported_actions : value
}.

(** [owned_by], [object] and [permission] are read with [getattr] and
    [hasattr]: [None] stands for an attribute the object does not have.
    A permission is given by its [__dict__]. *)
Record openai_model : Type := {
  o_id : value;
  o_created : value;
  o_owned_by : option value;
  o_object : option value;
  o_permission : option (list dict)
}.

Record anthropic_model : Type := {
  a_id : value;
  a_display_name : value;
  a_created_at : value
}.

(** [environ] is the process environment once [.env] is loaded.  An SDK
    is [None] when it cannot be imported; otherwise it is what building
    the client and listing the models gives: the models, or an
    exception.  [image_request_accepted] tells whether the vision request
    of the probe goes through for a model id. *)
Record environment : Type := {
  environ : list (string * string);
  models_json : file_state;
  google_genai : option (result (list google_model));
  OpenAI : option (result (list openai_model));
  Anthropic : option (result (list anthropic_model));
  image_request_accepted : value -> bool;
  write_succeeds : bool
}.

(** [os.getenv(name)] and [os.getenv(name, default)] *)
Definition getenv (env : environment) (name : string) : option string :=
  dict_get name (environ env).

Definition getenv_default (env : environment) (name default : string) : string :=
  match getenv env name with
  | Some v => v
  | None => default
  end.

(** [os.getenv(name, "0") in ("1", "true", "True")] *)
Definition toggle (env : environment) (name : string) : bool :=
  existsb (String.eqb (getenv_default env name "0")) ["1"; "true"; "True"].

Definition refresh_caps (env : environment) : bool := toggle env "REFRESH_CAPS".

Definition enable_openai_probes (env : environment) : bool :=
  toggle env "ENABLE_OPENAI_PROBES".

(** [not api_key] is false: the variable is set and not empty. *)
Definition has_api_key (env : environment) (name : string) : bool :=
  match getenv env name with
  | Some k => negb (String.eqb k "")
  | None => false
  end.

Definition google_descriptor (m : google_model) : dict :=
  [("id", g_name m); ("displayName", g_display_name m);
   ("description", g_description m); ("version", g_version m);
   ("supportedActions", g_supported_actions m)].

Definition openai_descriptor (m : openai_model) : dict :=
  [("id", o_id m);
   ("displayName", o_id m);
   ("created", o_created m);
   ("owned_by", match o_owned_by m with Some v => v | None => VStr "" end);
   ("object", match o_object m with Some v => v | None => VStr "" end);
   ("permissions",
    match o_permission m with
    | Some ps => VList (map VDict ps)
    | None => VList []
    end)].

Definition anthropic_descriptor (m : anthropic_model) : dict :=
  [("id", a_id m); ("displayName", a_display_name m); ("created_at", a_created_at m)].

(** A raw fetcher: no SDK or no key gives no models; otherwise every
    listed model becomes a descriptor, and an exception of the SDK is
    raised to the caller. *)
Definition raw_fetch {M : Type} (sdk : option (result (list M))) (has_key : bool)
  (descriptor : M -> dict) : result (list dict) :=
  match sdk with
  | None => Ok []
  | Some listing =>
      if negb has_key then Ok []
      else models <- listing ;; Ok (map descriptor models)
  end.

Definition raw_fetch_google (env : environment) (_ : unit) : result (list dict) :=
  raw_fetch (google_genai env) (has_api_key env "GOOGLE_API_KEY") google_descriptor.

Definition raw_fetch_openai (env : environment) (_ : unit) : result (list dict) :=
  raw_fetch (OpenAI env) (has_api_key env "OPENAI_API_KEY") openai_descriptor.

Definition raw_fetch_anthropic (env : environment) (_ : unit) : result (list dict) :=
  raw_fetch (Anthropic env) (has_api_key env "CLAUDE_API_KEY") anthropic_descriptor.

(** The probe: a tiny vision request; any failure is a [False]. *)
Definition probe_openai_model_supports_image (env : environment) (model_id : value)
  : bool :=
  match OpenAI env with
  | None => false
  | Some _ =>
      if negb (has_api_key env "OPENAI_API_KEY") then false
      else image_request_accepted env model_id
  end.

Definition managed_provider_ids : list string := ["google"; "openai"; "anthropic"].

(** Step 1: [data.get("models", [])] inside the [try]; a file that is
    missing or unreadable, or a document that is not an object, leaves
    the list empty. *)
Definition load_models (file : file_state) : value :=
  match file with
  | Parsed (VDict data) => dict_get_default "models" (VList []) data
  | _ => VList []
  end.

(** The lookup table keyed by [(providerId, id)]. *)
Definition key : Type := (value * value)%type.

Definition key_eqb (k1 k2 : key) : bool :=
  py_eq (fst k1) (fst k2) && py_eq (snd k1) (snd k2).

Definition table : Type := list (key * dict).

Fixpoint table_get (k : key) (t : table) : option dict :=
  match t with
  | [] => None
  | (k', m) :: t' => if key_eqb k k' then Some m else table_get k t'
  end.

Fixpoint table_set (k : key) (m : dict) (t : table) : table :=
  match t with
  | [] => [(k, m)]
  | (k', m') :: t' =>
      if key_eqb k k' then (k', m) :: t' else (k', m') :: table_set k m t'
  end.

Fixpoint table_del (k : key) (t : table) : table :=
  match t with
  | [] => []
  | (k', m') :: t' => if key_eqb k k' then t' else (k', m') :: table_del k t'
  end.

(** The dict comprehension over the loaded records.  A record can be
    indexed by a field name only when it is a dict. *)
Fixpoint existing_managed_models_from (ms : list value) (t : table)
  : result table :=
  match ms with
  | [] => Ok t
  | VDict m :: ms' =>
      p <- dict_item m "providerId" ;;
      if in_strs p managed_provider_ids then
        i <- dict_item m "id" ;;
        if hashable i
        then existing_managed_models_from ms' (table_set (p, i) m t)
        else Raise TypeError
      else existing_managed_models_from ms' t
  | _ :: _ => Raise TypeError
  end.

(** The list comprehension keeping the records of the other providers. *)
Fixpoint other_provider_models_from (ms : list value) : result (list dict) :=
  match ms with
  | [] => Ok []
  | VDict m :: ms' =>
      p <- dict_item m "providerId" ;;
      rest <- other_provider_models_from ms' ;;
      Ok (if in_strs p managed_provider_ids then rest else m :: rest)
  | _ :: _ => Raise TypeError
  end.

(** Step 3, the inner loop over the flags: preserve or refresh. *)
Definition merge_flag (refresh : bool) (fetched_model existing_model_entry : dict)
  (updated_entry : dict) (flag : string) : result dict :=
  if negb refresh && dict_mem flag existing_model_entry then
    v <- dict_item existing_model_entry flag ;;
    Ok (dict_set flag v updated_entry)
  else if negb (dict_mem flag updated_entry) then
    i <- dict_item fetched_model "id" ;;
    n <- dict_item fetched_model "name" ;;
    p <- dict_item fetched_model "providerId" ;;
    caps <- apply_heuristics_for_new_model i n p None ;;
    Ok (dict_set flag (dict_get_default flag (VBool false) caps) updated_entry)
  else Ok updated_entry.

Fixpoint merge_flags (refresh : bool) (fetched_model existing_model_entry : dict)
  (flags : list string) (updated_entry : dict) : result dict :=
  match flags with
  | [] => Ok updated_entry
  | flag :: flags' =>
      u <- merge_flag refresh fetched_model existing_model_entry updated_entry flag ;;
      merge_flags refresh fetched_model existing_model_entry flags' u
  end.

(** Step 3, the loop over the fetched candidates.  A matched entry is
    deleted from the table once it is processed.  The result is
    [updated_managed_models_list]: the record of the first candidate is
    appended first, so it is the head of the list the loop builds. *)
Fixpoint merge_models (refresh : bool) (all_fetched_api_models : list dict)
  (existing_managed_models_map : table) : result (list dict) :=
  match all_fetched_api_models with
  | [] => Ok []
  | fetched_model :: rest =>
      p <- dict_item fetched_model "providerId" ;;
      i <- dict_item fetched_model "id" ;;
      if hashable p && hashable i then
        match table_get (p, i) existing_managed_models_map with
        | Some existing_model_entry =>
            updated_entry <- merge_flags refresh fetched_model
                               existing_model_entry FLAGS fetched_model ;;
            updated <- merge_models refresh rest
                         (table_del (p, i) existing_managed_models_map) ;;
            Ok (updated_entry :: updated)
        | None =>
            updated <- merge_models refresh rest existing_managed_models_map ;;
            Ok (fetched_model :: updated)
        end
      else Raise TypeError
  end.

(** The optional probe of one record of the updated list. *)
Definition probe_model (probe : value -> bool) (m : dict) : result dict :=
  if py_eq (dict_get_default "providerId" VNone m) (VStr "openai") then
    mid <- (s <- as_str (dict_get_default "id" (VStr "") m) ;; Ok (lower s)) ;;
    if startswith "gpt-4o" mid || startswith "o" mid || startswith "gpt-5" mid
    then
      match dict_get "id" m with
      | Some i => Ok (if probe i then dict_set "multiModal" (VBool true) m else m)
      | None => Ok m
      end
    else Ok m
  else Ok m.

Definition probe_models (enabled : bool) (probe : value -> bool)
  (updated_managed_models_list : list dict) : result (list dict) :=
  if enabled then mapM (probe_model probe) updated_managed_models_list
  else Ok updated_managed_models_list.

(** Step 4: [sorted(..., key=lambda x: (x["providerId"], x["id"]))].
    The keys are computed first; the sort is stable and compares keys
    with [<] only, and a comparison that raises ends it. *)
Definition sort_key (x : dict) : result key :=
  p <- dict_item x "providerId" ;;
  i <- dict_item x "id" ;;
  Ok (p, i).

Fixpoint insert_by_key (x : key * dict) (l : list (key * dict))
  : result (list (key * dict)) :=
  match l with
  | [] => Ok [x]
  | y :: l' =>
      lt <- tuple_lt (fst y) (fst x) ;;
      if lt then (r <- insert_by_key x l' ;; Ok (y :: r)) else Ok (x :: y :: l')
  end.

Fixpoint sort_by_key (l : list (key * dict)) : result (list (key * dict)) :=
  match l with
  | [] => Ok []
  | x :: l' => s <- sort_by_key l' ;; insert_by_key x s
  end.

Definition sorted (l : list dict) : result (list dict) :=
  keyed <- mapM (fun x => k <- sort_key x ;; Ok (k, x)) l ;;
  s <- sort_by_key keyed ;;
  Ok (map snd s).

(** The three fetches, in the order of the script. *)
Definition all_fetched_api_models (env : environment) : list dict :=
  fetch_and_transform_models (raw_fetch_google env) "Google Generative AI" "google"
  ++ fetch_and_transform_models (raw_fetch_openai env) "OpenAI" "openai"
  ++ fetch_and_transform_models (raw_fetch_anthropic env) "Anthropic" "anthropic".

(** Steps 1 to 4: the list that is handed to the writer. *)
Definition final_models_list (env : environment) : result (list dict) :=
  current_models_list <- py_iter (load_models (models_json env)) ;;
  existing_managed_models_map <-
    existing_managed_models_from current_models_list [] ;;
  other_provider_models <- other_provider_models_from current_models_list ;;
  merged <- merge_models (refresh_caps env) (all_fetched_api_models env)
              existing_managed_models_map ;;
  updated_managed_models_list <-
    probe_models (enable_openai_probes env)
      (probe_openai_model_supports_image env) merged ;;
  sorted (updated_managed_models_list ++ other_provider_models).

(** What a run leaves behind: the file that was written, or nothing
    when the write failed (the failure is printed, not raised). *)
Definition main (env : environment) : result (option (list dict)) :=
  final <- final_models_list env ;;
  Ok (if write_succeeds env then Some final else None).

(** * The vocabulary of the properties *)

(** ** Shapes *)

(** The mapping the classifier works on: the six flags, in the order of
    the dict literal, each a boolean. *)
Definition capabilities (mm cs gi ar ai sr : bool) : dict :=
  [("multiModal", VBool mm);
   ("canSearch", VBool cs);
   ("canGenerateImages", VBool gi);
   ("isAdvancedReasoner", VBool ar);
   ("canAccessInternet", VBool ai);
   ("supportsReasoning", VBool sr)].

Inductive is_capabilities : dict -> Prop :=
| is_capabilities_intro (mm cs gi ar ai sr : bool) :
    is_capabilities (capabilities mm cs gi ar ai sr).

(** A record with the ten fields of a candidate, in the candidate's
    order; the flag values are arbitrary (a merge may copy any value). *)
Definition schema_entry (i pn ps nm mm cs gi ar ai sr : value) : dict :=
  [("id", i); ("provider", pn); ("providerId", ps); ("name", nm);
   ("multiModal", mm); ("canSearch", cs); ("canGenerateImages", gi);
   ("isAdvancedReasoner", ar); ("canAccessInternet", ai);
   ("supportsReasoning", sr)].

(** [supportsReasoning] false implies [isAdvancedReasoner] false. *)
Definition reasoning_normalized (r : dict) : Prop :=
  dict_get "supportsReasoning" r = Some (VBool false) ->
  dict_get "isAdvancedReasoner" r = Some (VBool false).

(** A candidate as the transformation builds it. *)
Inductive is_candidate : dict -> Prop :=
| is_candidate_intro (i pn ps : string) (nm : value) (mm cs gi ar ai sr : bool) :
    In ps managed_provider_ids ->
    (sr = false -> ar = false) ->
    is_candidate
      (schema_entry (VStr i) (VStr pn) (VStr ps) nm
         (VBool mm) (VBool cs) (VBool gi) (VBool ar) (VBool ai) (VBool sr)).

(** A display name the classifier can lower-case: a string, or a value
    that is false (then the id is used). *)
Definition name_like (v : value) : Prop :=
  truthy v = false \/ exists s, v = VStr s.

(** How a fetch-and-transform step can fail, and with which candidates
    already built: the raw fetch raised (none), or the transformation of
    a descriptor raised after those before it went through. *)
Inductive fails_after (fetch : unit -> result (list dict)) (pn ps : string)
  : list dict -> Prop :=
| fetch_raised (e : exn) :
    fetch tt = Raise e -> fails_after fetch pn ps []
| transform_raised (pre post done : list dict) (d : dict) (e : exn) :
    fetch tt = Ok (pre ++ d :: post) ->
    mapM (transform pn ps) pre = Ok done ->
    transform pn ps d = Raise e ->
    fails_after fetch pn ps done.

(** The value a flag ends with: the existing one when it is preserved. *)
Definition pick (refresh : bool) (existing : dict) (flag : string) (v : value)
  : value :=
  match (if refresh then None else dict_get flag existing) with
  | Some w => w
  | None => v
  end.

Definition preserve_flag (refresh : bool) (existing : dict) (u : dict)
  (flag : string) : dict :=
  dict_set flag (pick refresh existing flag (dict_get_default flag VNone u)) u.

Definition preserve_flags (refresh : bool) (existing : dict) (u : dict) : dict :=
  fold_left (preserve_flag refresh existing) FLAGS u.

(** The key under which a record is filed and sorted. *)
Definition record_key (r : dict) : option value * option value :=
  (dict_get "providerId" r, dict_get "id" r).

(** The loop of step 3 on candidates, without the exceptions it cannot
    raise there. *)
Fixpoint merge_candidates (refresh : bool) (fetched : list dict) (t : table)
  : list dict :=
  match fetched with
  | [] => []
  | f :: rest =>
      let k := (dict_get_default "providerId" VNone f, dict_get_default "id" VNone f) in
      match table_get k t with
      | Some e => preserve_flags refresh e f :: merge_candidates refresh rest (table_del k t)
      | None => f :: merge_candidates refresh rest t
      end
  end.

(** The key a fetched candidate is looked up with. *)
Definition lookup_key (f : dict) : key :=
  (dict_get_default "providerId" VNone f, dict_get_default "id" VNone f).

(** [u] is the merge of the fresh candidate [f] with the existing record:
    the fields of [f] in their order, the other fields as [f] has them,
    and every flag preserved when refresh is off and [existing] defines
    it, fresh otherwise. *)
Definition flags_merged (refresh : bool) (existing f u : dict) : Prop :=
  map fst u = map fst f /\
  (forall k, ~ In k FLAGS -> dict_get k u = dict_get k f) /\
  (forall flag, In flag FLAGS ->
     dict_get flag u
     = if negb refresh && dict_mem flag existing
       then dict_get flag existing else dict_get flag f).

(** The claim on the merged record of the [n]-th candidate. *)
Definition merged_at (refresh : bool) (fetched : list dict) (t : table)
  (n : nat) (existing f : dict) : Prop :=
  exists out u,
    merge_models refresh fetched t = Ok out /\
    nth_error out n = Some u /\
    flags_merged refresh existing f u.

(** The records of a loaded list that are dicts. *)
Definition as_dicts (ms : list value) : list dict :=
  flat_map (fun m => match m with VDict d => [d] | _ => [] end) ms.

(** A record of a managed provider. *)
Definition is_managed (r : dict) : bool :=
  match dict_get "providerId" r with
  | Some p => in_strs p managed_provider_ids
  | None => false
  end.

Definition is_other (r : dict) : bool := negb (is_managed r).

(** The entries of the table: each is filed under a key equal to its
    own, and comes from the loaded list. *)
Definition table_entry_ok (ms : list value) (ke : key * dict) : Prop :=
  let (k, e) := ke in
  hashable (fst k) = true /\ hashable (snd k) = true /\
  In (VDict e) ms /\
  exists p i, record_key e = (Some p, Some i) /\ key_eqb (p, i) k = true.

(** A record of the updated list: the ten fields of a candidate, any
    values for the flags. *)
Inductive is_entry : dict -> Prop :=
| is_entry_intro (i pn ps : string) (nm mm cs gi ar ai sr : value) :
    In ps managed_provider_ids ->
    is_entry (schema_entry (VStr i) (VStr pn) (VStr ps) nm mm cs gi ar ai sr).

(** What the probe leaves of a record. *)
Definition probed (probe : value -> bool) (m : dict) : dict :=
  match probe_model probe m with
  | Ok m' => m'
  | Raise _ => m
  end.

Definition probed_models (enabled : bool) (probe : value -> bool) (l : list dict)
  : list dict :=
  if enabled then map (probed probe) l else l.

Definition with_key (x : dict) : result (key * dict) :=
  k <- sort_key x ;; Ok (k, x).

(** The updated list of managed records that goes into the sort. *)
Definition updated_managed_models_list (env : environment) (t : table) : list dict :=
  probed_models (enable_openai_probes env) (probe_openai_model_supports_image env)
    (merge_candidates (refresh_caps env) (all_fetched_api_models env) t).

(** The records of the prior catalog, as the run loads them. *)
Definition prior_records (env : environment) : list dict :=
  match py_iter (load_models (models_json env)) with
  | Ok ms => as_dicts ms
  | Raise _ => []
  end.

(** The key of a record as two strings (empty when it has none). *)
Definition str_key (r : dict) : string * string :=
  match dict_get "providerId" r, dict_get "id" r with
  | Some (VStr p), Some (VStr i) => (p, i)
  | _, _ => ("", "")
  end.

Definition has_str_key (r : dict) : bool :=
  match dict_get "providerId" r, dict_get "id" r with
  | Some (VStr _), Some (VStr _) => true
  | _, _ => false
  end.

(** The tuple comparison of the sort, on two pairs of strings. *)
Definition pair_ltb (a b : string * string) : bool :=
  if negb (fst a =? fst b)%string then (fst a <? fst b)%string
  else if negb (snd a =? snd b)%string then (snd a <? snd b)%string
  else false.

Definition key_ltb (a b : dict) : bool := pair_ltb (str_key a) (str_key b).

(** Ascending by [providerId], then by [id]. *)
Definition key_le (a b : dict) : Prop :=
  (fst (str_key a) <? fst (str_key b))%string = true \/
  (fst (str_key a) = fst (str_key b) /\
   (snd (str_key a) <=? snd (str_key b))%string = true).

(** The sort on records with string keys, without the monad. *)
Fixpoint insert_record (x : dict) (l : list dict) : list dict :=
  match l with
  | [] => [x]
  | y :: l' => if key_ltb y x then y :: insert_record x l' else x :: y :: l'
  end.

Fixpoint sort_records (l : list dict) : list dict :=
  match l with
  | [] => []
  | x :: l' => insert_record x (sort_records l')
  end.

Definition value_key (r : dict) : key :=
  (VStr (fst (str_key r)), VStr (snd (str_key r))).

Definition keyed (l : list dict) : list (key * dict) :=
  map (fun r => (value_key r, r)) l.

(** A record of the data model: an object whose [providerId] and [id]
    are strings.  Nothing is asked of its other fields. *)
Definition well_formed_record (m : value) : bool :=
  match m with
  | VDict d => has_str_key d
  | _ => false
  end.

(** The catalog file is missing or unreadable, or is not an object, or
    has no ["models"], or its ["models"] is a list of such records. *)
Definition well_formed_catalog (file : file_state) : bool :=
  match load_models file with
  | VList ms => forallb well_formed_record ms
  | _ => false
  end.

(** The environment of a second run: the same surroundings, with the
    file the first run wrote as the catalog.  Writing these values as
    JSON and parsing them back gives them again, in the same order. *)
Definition with_catalog (env : environment) (models : list dict) : environment :=
  {| environ := environ env;
     models_json := Parsed (VDict [("models", VList (map VDict models))]);
     google_genai := google_genai env;
     OpenAI := OpenAI env;
     Anthropic := Anthropic env;
     image_request_accepted := image_request_accepted env;
     write_succeeds := write_succeeds env |}.

(** What the merge makes of one candidate, given the table. *)
Definition merge_one (refresh : bool) (t : table) (f : dict) : dict :=
  match table_get (lookup_key f) t with
  | Some e => preserve_flags refresh e f
  | None => f
  end.

(** [u] is the candidate [f] with other values for its flags. *)
Inductive over : dict -> dict -> Prop :=
| over_intro (i pn ps : string) (nm : value) (mm cs gi ar ai sr : bool)
    (mm' cs' gi' ar' ai' sr' : value) :
    In ps managed_provider_ids ->
    over
      (schema_entry (VStr i) (VStr pn) (VStr ps) nm
         (VBool mm) (VBool cs) (VBool gi) (VBool ar) (VBool ai) (VBool sr))
      (schema_entry (VStr i) (VStr pn) (VStr ps) nm mm' cs' gi' ar' ai' sr').

(** The record a candidate becomes in the updated list. *)
Definition settle (enabled : bool) (probe : value -> bool) (m : dict) : dict :=
  if enabled then probed probe m else m.

(** ** The data of the concrete runs *)

(** Model objects as the SDKs list them. *)
Definition gpt4o_model : openai_model :=
  {| o_id := VStr "gpt-4o"; o_created := VInt 1715367049;
     o_owned_by := Some (VStr "system"); o_object := Some (VStr "model");
     o_permission := None |}.

Definition gpt5_model : openai_model :=
  {| o_id := VStr "gpt-5"; o_created := VInt 1754425777;
     o_owned_by := Some (VStr "system"); o_object := Some (VStr "model");
     o_permission := None |}.

Definition gemini_model : google_model :=
  {| g_name := VStr "models/gemini-1.5-pro"; g_display_name := VStr "Gemini 1.5 Pro";
     g_description := VStr "Mid-size multimodal model"; g_version := VStr "001";
     g_supported_actions := VList [VStr "generateContent"; VStr "countTokens"] |}.

(** A model the API lists without a display name: the transformation of
    its descriptor raises. *)
Definition gemini_unnamed_model : google_model :=
  {| g_name := VStr "models/gemini-2.0-flash"; g_display_name := VNone;
     g_description := VNone; g_version := VStr "2.0";
     g_supported_actions := VList [VStr "generateContent"] |}.

Definition gpt4o_descriptor : dict := openai_descriptor gpt4o_model.
Definition gpt5_descriptor : dict := openai_descriptor gpt5_model.
Definition gemini_descriptor : dict := google_descriptor gemini_model.
Definition gemini_unnamed_descriptor : dict := google_descriptor gemini_unnamed_model.

(** Records of a prior catalog. *)
Definition prior_gpt4o : dict :=
  [("id", VStr "gpt-4o"); ("provider", VStr "OpenAI"); ("providerId", VStr "openai");
   ("name", VStr "GPT-4o"); ("multiModal", VBool false)].

Definition prior_retired : dict :=
  [("id", VStr "text-davinci-003"); ("provider", VStr "OpenAI");
   ("providerId", VStr "openai"); ("name", VStr "Davinci 003");
   ("multiModal", VBool false); ("canSearch", VBool false);
   ("canGenerateImages", VBool false); ("isAdvancedReasoner", VBool false);
   ("canAccessInternet", VBool false); ("supportsReasoning", VBool true)].

Definition prior_mistral : dict :=
  [("id", VStr "mistral-large"); ("provider", VStr "Mistral");
   ("providerId", VStr "mistral"); ("name", VStr "Mistral Large");
   ("contextWindow", VInt 32000)].

(** A hand-edited record: no reasoning support, yet advanced reasoner. *)
Definition prior_gpt4o_edited : dict :=
  [("id", VStr "gpt-4o"); ("provider", VStr "OpenAI"); ("providerId", VStr "openai");
   ("name", VStr "GPT-4o"); ("isAdvancedReasoner", VBool true);
   ("supportsReasoning", VBool false)].

Definition catalog_of (records : list dict) : file_state :=
  Parsed (VDict [("models", VList (map VDict records))]).

Definition keys_set : list (string * string) :=
  [("GOOGLE_API_KEY", "g-key"); ("OPENAI_API_KEY", "o-key"); ("CLAUDE_API_KEY", "c-key")].

(** A run with probes enabled, one provider failing in the fetch, one in
    the middle of the transformation, and one answering; the file cannot
    be written. *)
Definition env_typical : environment :=
  {| environ := ("ENABLE_OPENAI_PROBES", "1") :: keys_set;
     models_json := catalog_of [prior_mistral; prior_gpt4o; prior_retired];
     google_genai := Some (Ok [gemini_model; gemini_unnamed_model]);
     OpenAI := Some (Ok [gpt4o_model; gpt5_model]);
     Anthropic := Some (Raise (APIError "APIConnectionError"));
     image_request_accepted := fun v => eq_str v "gpt-5";
     write_succeeds := false |}.

(** The provider lists the same model twice. *)
Definition env_duplicates : environment :=
  {| environ := keys_set;
     models_json := catalog_of [prior_gpt4o];
     google_genai := None;
     OpenAI := Some (Ok [gpt4o_model; gpt4o_model]);
     Anthropic := None;
     image_request_accepted := fun _ => false;
     write_succeeds := true |}.

Definition env_edited : environment :=
  {| environ := keys_set;
     models_json := catalog_of [prior_gpt4o_edited];
     google_genai := None;
     OpenAI := Some (Ok [gpt4o_model]);
     Anthropic := None;
     image_request_accepted := fun _ => false;
     write_succeeds := true |}.

(** A catalog with a record that has no [providerId]. *)
Definition env_malformed : environment :=
  {| environ := keys_set;
     models_json := catalog_of [[("id", VStr "gpt-4o"); ("name", VStr "GPT-4o")]];
     google_genai := None;
     OpenAI := None;
     Anthropic := None;
     image_request_accepted := fun _ => false;
     write_succeeds := true |}.

Definition output_of (env : environment) : list dict :=
  match final_models_list env with
  | Ok out => out
  | Raise _ => []
  end.

Definition out_typical : list dict := Eval vm_compute in output_of env_typical.
Definition out_duplicates : list dict := Eval vm_compute in output_of env_duplicates.
Definition out_edited : list dict := Eval vm_compute in output_of env_edited.

Definition candidate_of (pn ps : string) (d : dict) : dict :=
  match transform pn ps d with
  | Ok c => c
  | Raise _ => []
  end.

Definition candidate_gpt4o : dict :=
  Eval vm_compute in candidate_of "OpenAI" "openai" gpt4o_descriptor.

Definition candidate_gemini : dict :=
  Eval vm_compute in candidate_of "Google Generative AI" "google" gemini_descriptor.

Definition table_gpt4o : table := [((VStr "openai", VStr "gpt-4o"), prior_gpt4o)].

Definition fetched_once : list dict :=
  transform_loop "OpenAI" "openai" [gpt4o_descriptor; gpt5_descriptor].

Definition fetched_twice : list dict :=
  transform_loop "OpenAI" "openai" [gpt4o_descriptor; gpt4o_descriptor].

(** ** More vocabulary: the rest of the script *)

(** A display name with its string lower-cased. *)
Definition lower_value (v : value) : value :=
  match v with
  | VStr n => VStr (lower n)
  | _ => v
  end.


(** A provider that cannot be asked: no SDK, or no key. *)
Definition cannot_fetch {M : Type} (sdk : option (result (list M))) (has_key : bool)
  : Prop :=
  sdk = None \/ has_key = false.

(** The fields of a record of a managed provider in the output. *)
Definition SCHEMA_FIELDS : list string :=
  ["id"; "provider"; "providerId"; "name"] ++ FLAGS.

(** The exception the partition of the catalog raises at a record, if
    any: the record is not an object, has no [providerId], or is of a
    managed provider and has no [id] or an [id] that cannot be hashed. *)
Definition partition_error (m : value) : option exn :=
  match m with
  | VDict d =>
      match dict_get "providerId" d with
      | None => Some (KeyError "providerId")
      | Some p =>
          if in_strs p managed_provider_ids then
            match dict_get "id" d with
            | None => Some (KeyError "id")
            | Some i => if hashable i then None else Some TypeError
            end
          else None
      end
  | _ => Some TypeError
  end.

(** No character of [s] is [c]. *)
Fixpoint free_of (c : ascii) (s : string) : bool :=
  match s with
  | EmptyString => true
  | String x s' => negb (Ascii.eqb x c) && free_of c s'
  end.

(** ** More data for concrete runs *)


Definition flash_model : google_model :=
  {| g_name := VStr "models/gemini-1.5-flash"; g_display_name := VStr "Gemini 1.5 Flash";
     g_description := VStr "Fast multimodal model"; g_version := VStr "001";
     g_supported_actions := VList [VStr "generateContent"] |}.

(** The SDKs are there and answer, and no key is set. *)
Definition env_no_keys : environment :=
  {| environ := [("OPENAI_API_KEY", "")];
     models_json := catalog_of [prior_mistral; prior_gpt4o];
     google_genai := Some (Ok [gemini_model]);
     OpenAI := Some (Ok [gpt4o_model]);
     Anthropic := None;
     image_request_accepted := fun _ => false;
     write_succeeds := true |}.

(** No catalog file yet. *)
Definition env_first_run : environment :=
  {| environ := keys_set;
     models_json := Missing;
     google_genai := Some (Ok [gemini_model]);
     OpenAI := Some (Ok [gpt4o_model]);
     Anthropic := None;
     image_request_accepted := fun _ => false;
     write_succeeds := true |}.

(** Refresh mode, on a catalog with a hand-corrected record. *)
Definition env_refresh : environment :=
  {| environ := ("REFRESH_CAPS", "true") :: keys_set;
     models_json := catalog_of [prior_mistral; prior_gpt4o];
     google_genai := None;
     OpenAI := Some (Ok [gpt4o_model]);
     Anthropic := None;
     image_request_accepted := fun _ => false;
     write_succeeds := true |}.

(** A record of another provider without an [id]. *)
Definition prior_unnamed_other : dict :=
  [("provider", VStr "Mistral"); ("providerId", VStr "mistral");
   ("name", VStr "Mistral Small")].

Definition env_other_without_id : environment :=
  {| environ := keys_set;
     models_json := catalog_of [prior_mistral; prior_unnamed_other; prior_gpt4o];
     google_genai := None;
     OpenAI := Some (Ok [gpt4o_model]);
     Anthropic := None;
     image_request_accepted := fun _ => false;
     write_succeeds := true |}.

Definition out_refresh : list dict := Eval vm_compute in output_of env_refresh.

(** The table of a catalog that lists [gpt-4o] twice. *)
Definition table_of (records : list dict) : table :=
  match existing_managed_models_from (map VDict records) [] with
  | Ok t => t
  | Raise _ => []
  end.

Definition table_twice : table :=
  Eval vm_compute in table_of [prior_gpt4o; prior_gpt4o_edited; prior_mistral].

Definition candidate_gpt4o_probed : dict :=
  Eval vm_compute in dict_set "multiModal" (VBool true) candidate_gpt4o.

(** * Properties *)

(** ** The classifier *)

Lemma set_flag_capabilities (k : string) (b : bool) (caps : dict) :
  In k FLAGS -> is_capabilities caps -> is_capabilities (set_flag k b caps).
Proof.
  intros Hk Hc. destruct Hc.
  unfold FLAGS in Hk. simpl in Hk.
  repeat (destruct Hk as [<- | Hk]; [cbn; constructor |]).
  contradiction.
Qed.

Ltac caps_rules :=
  cbv zeta;
  repeat first
    [ assumption
    | apply set_flag_capabilities; [unfold FLAGS; simpl; tauto |]
    | match goal with
      | |- is_capabilities (if ?c then _ else _) => destruct c
      end ].

Lemma google_rules_capabilities id_l name_l api_data caps :
  is_capabilities caps -> is_capabilities (google_rules id_l name_l api_data caps).
Proof. intros H. unfold google_rules. caps_rules. Qed.

Lemma openai_rules_capabilities id_l caps :
  is_capabilities caps -> is_capabilities (openai_rules id_l caps).
Proof. intros H. unfold openai_rules. caps_rules. Qed.

Lemma anthropic_rules_capabilities id_l caps :
  is_capabilities caps -> is_capabilities (anthropic_rules id_l caps).
Proof. intros H. unfold anthropic_rules. caps_rules. Qed.

Lemma provider_rules_capabilities p id_l name_l api_data caps :
  is_capabilities caps ->
  is_capabilities (provider_rules p id_l name_l api_data caps).
Proof.
  intros H. unfold provider_rules.
  destruct (eq_str p "google"); [now apply google_rules_capabilities |].
  destruct (eq_str p "openai"); [now apply openai_rules_capabilities |].
  destruct (eq_str p "anthropic"); [now apply anthropic_rules_capabilities |].
  assumption.
Qed.

Lemma normalize_capabilities caps :
  is_capabilities caps ->
  exists mm cs gi ar ai sr,
    normalize caps = Ok (capabilities mm cs gi ar ai sr) /\ (sr = false -> ar = false).
Proof.
  intros [mm cs gi ar ai sr]. unfold normalize. cbn.
  destruct sr; cbn.
  - exists mm, cs, gi, ar, ai, true. split; [reflexivity | discriminate].
  - exists mm, cs, gi, false, ai, false. split; reflexivity.
Qed.

Lemma as_str_py_or (dn : value) (s : string) :
  name_like dn -> exists n, as_str (py_or dn (VStr s)) = Ok n.
Proof.
  intros [Hf | [n ->]]; unfold py_or.
  - rewrite Hf. now exists s.
  - destruct (truthy (VStr n)); [now exists n | now exists s].
Qed.

Lemma apply_heuristics_capabilities (s : string) (dn p : value) (api : option dict) :
  name_like dn ->
  exists mm cs gi ar ai sr,
    apply_heuristics_for_new_model (VStr s) dn p api
    = Ok (capabilities mm cs gi ar ai sr) /\ (sr = false -> ar = false).
Proof.
  intros Hdn. unfold apply_heuristics_for_new_model.
  destruct (as_str_py_or dn s Hdn) as [n Hn]. rewrite Hn. cbn [as_str bind].
  apply normalize_capabilities, provider_rules_capabilities.
  exact (is_capabilities_intro false false false false false true).
Qed.

(** Whatever the arguments, a result of the classifier is normalized. *)
Lemma apply_heuristics_inv (m dn p : value) (api : option dict) (caps : dict) :
  apply_heuristics_for_new_model m dn p api = Ok caps ->
  exists (s : string) mm cs gi ar ai sr,
    m = VStr s /\ caps = capabilities mm cs gi ar ai sr /\ (sr = false -> ar = false).
Proof.
  unfold apply_heuristics_for_new_model. intros H.
  destruct m; try discriminate H. cbn [as_str bind] in H.
  destruct (as_str (py_or dn (VStr s))) as [n | e]; [| discriminate H].
  cbn [bind] in H.
  destruct (normalize_capabilities
              (provider_rules p (lower s) (lower n)
                 match api with Some d => d | None => [] end default_capabilities))
    as (mm & cs & gi & ar & ai & sr & Hn & Hp).
  { apply provider_rules_capabilities.
    exact (is_capabilities_intro false false false false false true). }
  rewrite Hn in H. injection H as <-.
  exists s, mm, cs, gi, ar, ai, sr. auto.
Qed.

(** ** Fetching and transforming *)

Lemma transform_candidate (pn ps : string) (d e : dict) :
  In ps managed_provider_ids ->
  transform pn ps d = Ok e -> is_candidate e.
Proof.
  intros Hps. unfold transform.
  set (model_id := dict_get_default "id" _ d).
  set (dn := dict_get_default "displayName" model_id d).
  destruct (derive_name ps model_id dn) as [name | ?]; [| discriminate].
  cbn [bind].
  destruct (apply_heuristics_for_new_model model_id name (VStr ps) (Some d))
    as [caps | ?] eqn:Hc; [| discriminate].
  cbn [bind]. intros H. injection H as <-.
  apply apply_heuristics_inv in Hc.
  destruct Hc as (s & mm & cs & gi & ar & ai & sr & -> & -> & Hn).
  cbn. now constructor.
Qed.

Lemma transform_loop_candidates (pn ps : string) (raw : list dict) :
  In ps managed_provider_ids ->
  Forall is_candidate (transform_loop pn ps raw).
Proof.
  intros Hps. induction raw as [| d raw IH]; cbn; [constructor |].
  destruct (transform pn ps d) eqn:Ht; [| constructor].
  constructor; [now apply (transform_candidate pn ps d) | exact IH].
Qed.

Lemma fetch_and_transform_candidates fetch (pn ps : string) :
  In ps managed_provider_ids ->
  Forall is_candidate (fetch_and_transform_models fetch pn ps).
Proof.
  intros Hps. unfold fetch_and_transform_models.
  destruct (fetch tt); [now apply transform_loop_candidates | constructor].
Qed.

Lemma all_fetched_candidates (env : environment) :
  Forall is_candidate (all_fetched_api_models env).
Proof.
  unfold all_fetched_api_models.
  repeat (apply Forall_app; split);
    apply fetch_and_transform_candidates; unfold managed_provider_ids; simpl; tauto.
Qed.

(** The loop stops at the first descriptor whose transformation raises
    and keeps the candidates built before it. *)
Lemma transform_loop_app_raise (pn ps : string) (pre post done : list dict)
  (d : dict) (e : exn) :
  mapM (transform pn ps) pre = Ok done ->
  transform pn ps d = Raise e ->
  transform_loop pn ps (pre ++ d :: post) = done.
Proof.
  revert done. induction pre as [| x pre IH]; cbn; intros done Hpre Hd.
  - rewrite Hd. now injection Hpre.
  - destruct (transform pn ps x) as [y |]; [| discriminate Hpre].
    cbn [bind] in Hpre.
    destruct (mapM (transform pn ps) pre) as [ys |]; [| discriminate Hpre].
    cbn [bind] in Hpre. injection Hpre as <-.
    f_equal. now apply IH.
Qed.

(** ** Dicts and the lookup table *)

Lemma dict_set_same {A : Type} (k : string) (v : A) (d : list (string * A)) :
  dict_get k d = Some v -> dict_set k v d = d.
Proof.
  induction d as [| [k' v'] d IH]; cbn; [discriminate |].
  destruct (String.eqb k k'); intros H.
  - now injection H as ->.
  - now rewrite IH.
Qed.

Lemma dict_get_set {A : Type} (k k' : string) (v : A) (d : list (string * A)) :
  dict_get k' (dict_set k v d)
  = if String.eqb k' k then Some v else dict_get k' d.
Proof.
  induction d as [| [k0 v0] d IH]; cbn.
  - now destruct (String.eqb k' k).
  - destruct (String.eqb k k0) eqn:E; cbn.
    + apply String.eqb_eq in E. subst k0.
      now destruct (String.eqb k' k).
    + rewrite IH. destruct (String.eqb k' k0) eqn:E'; [| reflexivity].
      apply String.eqb_eq in E'. subst k0.
      rewrite String.eqb_sym in E. now rewrite E.
Qed.

Lemma dict_mem_set {A : Type} (k k' : string) (v : A) (d : list (string * A)) :
  dict_mem k' d = true -> dict_mem k' (dict_set k v d) = true.
Proof.
  unfold dict_mem. rewrite dict_get_set.
  now destruct (String.eqb k' k).
Qed.

(** Comparing with a string: only that string is equal to it. *)
Lemma py_eq_str_l (s : string) (v : value) : py_eq (VStr s) v = true <-> v = VStr s.
Proof.
  destruct v; cbn; try (split; [discriminate | discriminate]).
  rewrite String.eqb_eq. split; [now intros -> | now intros [= ->]].
Qed.

Lemma py_eq_str_r (s : string) (v : value) : py_eq v (VStr s) = true <-> v = VStr s.
Proof.
  destruct v; cbn; try (split; [discriminate | discriminate]).
  rewrite String.eqb_eq. split; [now intros -> | now intros [= ->]].
Qed.

Lemma key_eqb_str (a b : string) (k : key) :
  key_eqb (VStr a, VStr b) k = true <-> k = (VStr a, VStr b).
Proof.
  destruct k as [p i]. unfold key_eqb. cbn [fst snd].
  rewrite andb_true_iff, !py_eq_str_l.
  split; [now intros [-> ->] | now intros [= -> ->]].
Qed.

Lemma key_eqb_str_refl (a b : string) : key_eqb (VStr a, VStr b) (VStr a, VStr b) = true.
Proof. now apply key_eqb_str. Qed.

(** Deleting one string key leaves the lookup of another untouched. *)
Lemma table_get_del_other (a b a' b' : string) (t : table) :
  (a, b) <> (a', b') ->
  table_get (VStr a, VStr b) (table_del (VStr a', VStr b') t)
  = table_get (VStr a, VStr b) t.
Proof.
  intros Hne. induction t as [| [k0 m] t IH]; cbn; [reflexivity |].
  destruct (key_eqb (VStr a', VStr b') k0) eqn:E'.
  - apply key_eqb_str in E'. subst k0.
    destruct (key_eqb (VStr a, VStr b) (VStr a', VStr b')) eqn:E; [| reflexivity].
    apply key_eqb_str in E. injection E as <- <-. now contradiction Hne.
  - cbn. now rewrite IH.
Qed.

(** ** The merge *)

Lemma merge_flag_defined (refresh : bool) (f e u : dict) (flag : string) :
  dict_mem flag u = true ->
  merge_flag refresh f e u flag = Ok (preserve_flag refresh e u flag).
Proof.
  unfold dict_mem, merge_flag, preserve_flag, pick, dict_item, dict_get_default, dict_mem.
  destruct (dict_get flag u) as [v |] eqn:Hu; [intros _ | discriminate].
  destruct refresh; cbn.
  - now rewrite (dict_set_same flag v u Hu).
  - destruct (dict_get flag e) as [w |]; cbn; [reflexivity |].
    now rewrite (dict_set_same flag v u Hu).
Qed.

Lemma merge_flags_defined (refresh : bool) (f e : dict) (flags : list string) (u : dict) :
  (forall flag, In flag flags -> dict_mem flag u = true) ->
  merge_flags refresh f e flags u
  = Ok (fold_left (preserve_flag refresh e) flags u).
Proof.
  revert u. induction flags as [| flag flags IH]; intros u Hu; cbn; [reflexivity |].
  rewrite merge_flag_defined by (apply Hu; now left). cbn [bind].
  apply IH. intros flag' Hin. unfold preserve_flag.
  apply dict_mem_set, Hu. now right.
Qed.

Lemma preserve_flags_entry (refresh : bool) (e : dict) (i pn ps nm mm cs gi ar ai sr : value) :
  preserve_flags refresh e (schema_entry i pn ps nm mm cs gi ar ai sr)
  = schema_entry i pn ps nm
      (pick refresh e "multiModal" mm) (pick refresh e "canSearch" cs)
      (pick refresh e "canGenerateImages" gi) (pick refresh e "isAdvancedReasoner" ar)
      (pick refresh e "canAccessInternet" ai) (pick refresh e "supportsReasoning" sr).
Proof. reflexivity. Qed.

Lemma candidate_has_flags (f : dict) (flag : string) :
  is_candidate f -> In flag FLAGS -> dict_mem flag f = true.
Proof.
  intros [] Hin. unfold FLAGS in Hin. simpl in Hin.
  repeat (destruct Hin as [<- | Hin]; [reflexivity |]). contradiction.
Qed.

Lemma merge_models_candidates (refresh : bool) (fetched : list dict) (t : table) :
  Forall is_candidate fetched ->
  merge_models refresh fetched t = Ok (merge_candidates refresh fetched t).
Proof.
  intros H. revert t. induction H as [| f rest Hf Hrest IH]; intros t; [reflexivity |].
  cbn [merge_models merge_candidates].
  pose proof (candidate_has_flags f) as Hflags.
  destruct Hf as [i pn ps nm mm cs gi ar ai sr Hps Hn].
  set (f := schema_entry _ _ _ _ _ _ _ _ _ _) in *.
  change (dict_item f "providerId") with (@Ok value (VStr ps)).
  change (dict_item f "id") with (@Ok value (VStr i)).
  change (dict_get_default "providerId" VNone f) with (VStr ps).
  change (dict_get_default "id" VNone f) with (VStr i).
  cbn [bind hashable andb].
  destruct (table_get (VStr ps, VStr i) t) as [e |].
  - rewrite merge_flags_defined
      by (intros flag Hin; apply Hflags; [now constructor | exact Hin]).
    cbn [bind]. rewrite IH. reflexivity.
  - rewrite IH. reflexivity.
Qed.

Lemma flags_merged_preserve (refresh : bool) (e f : dict) :
  is_candidate f -> flags_merged refresh e f (preserve_flags refresh e f).
Proof.
  intros []. rewrite preserve_flags_entry. repeat split.
  - intros k Hk. cbn [dict_get schema_entry].
    repeat (destruct (String.eqb k _) eqn:?E;
            [ try reflexivity; exfalso; apply Hk; apply String.eqb_eq in E;
              subst k; unfold FLAGS; simpl; tauto | clear E ]).
    reflexivity.
  - intros flag Hin. unfold FLAGS in Hin. simpl in Hin.
    repeat (destruct Hin as [<- | Hin];
            [ cbn; unfold pick, dict_mem; destruct refresh; cbn;
              [reflexivity | now destruct (dict_get _ e)] |]).
    contradiction.
Qed.

Lemma candidate_lookup_key (f : dict) :
  is_candidate f -> exists ps i, lookup_key f = (VStr ps, VStr i).
Proof. intros []. now exists ps, i. Qed.

Lemma merge_candidates_first (refresh : bool) (fetched : list dict) (t : table)
  (n : nat) (f e : dict) :
  Forall is_candidate fetched ->
  nth_error fetched n = Some f ->
  table_get (lookup_key f) t = Some e ->
  (forall j g, j < n -> nth_error fetched j = Some g -> lookup_key g <> lookup_key f) ->
  nth_error (merge_candidates refresh fetched t) n = Some (preserve_flags refresh e f).
Proof.
  intros Hc. revert t n. induction Hc as [| g rest Hg Hrest IH]; intros t n Hn He Hfirst.
  - now destruct n.
  - destruct n as [| n]; cbn [nth_error merge_candidates] in *.
    + injection Hn as ->. fold (lookup_key f). now rewrite He.
    + assert (Hgf : lookup_key g <> lookup_key f) by (apply (Hfirst 0 g); [lia | reflexivity]).
      assert (Hf : is_candidate f).
      { rewrite Forall_forall in Hrest. eapply Hrest, nth_error_In, Hn. }
      fold (lookup_key g).
      destruct (candidate_lookup_key g Hg) as (ps' & i' & Kg).
      destruct (candidate_lookup_key f Hf) as (ps & i & Kf).
      assert (Hrec : forall j g0, j < n -> nth_error rest j = Some g0 ->
                                  lookup_key g0 <> lookup_key f).
      { intros j g0 Hj Hg0. apply (Hfirst (S j) g0); [lia | exact Hg0]. }
      destruct (table_get (lookup_key g) t); cbn [nth_error].
      * apply IH; try assumption.
        rewrite Kg, Kf in *. rewrite table_get_del_other; [exact He |].
        intros [= -> ->]. now apply Hgf.
      * now apply IH.
Qed.

(** C1 (as amended).  When the [n]-th fetched candidate is the first one
    with its [(providerId, id)] key and the table of existing managed
    records has that key, the merge loop completes and the [n]-th record
    it appends starts from the fresh candidate (same fields, same
    non-flag values) and has, for each of the six flags, the existing
    value when refresh is off and the existing record defines the flag,
    and the candidate's classifier-derived value otherwise. *)
Theorem merge_first_match_preserves_flags (refresh : bool) (fetched : list dict)
  (t : table) (n : nat) (f e : dict) :
  Forall is_candidate fetched ->
  nth_error fetched n = Some f ->
  table_get (lookup_key f) t = Some e ->
  (forall j g, j < n -> nth_error fetched j = Some g -> lookup_key g <> lookup_key f) ->
  merged_at refresh fetched t n e f.
Proof.
  intros Hc Hn He Hfirst.
  exists (merge_candidates refresh fetched t), (preserve_flags refresh e f).
  split; [now apply merge_models_candidates |].
  split; [now apply merge_candidates_first |].
  apply flags_merged_preserve.
  rewrite Forall_forall in Hc. eapply Hc, nth_error_In, Hn.
Qed.

(** ** Records of the catalog *)

Lemma dict_item_get (d : dict) (k : string) (v : value) :
  dict_item d k = Ok v <-> dict_get k d = Some v.
Proof.
  unfold dict_item. destruct (dict_get k d); split; intros H;
    try discriminate H; now injection H as ->.
Qed.

Lemma in_as_dicts (ms : list value) (d : dict) : In d (as_dicts ms) <-> In (VDict d) ms.
Proof.
  unfold as_dicts. rewrite in_flat_map. split.
  - intros (m & Hm & Hd). destruct m; try contradiction.
    destruct Hd as [-> | []]. exact Hm.
  - intros H. exists (VDict d). split; [exact H | now left].
Qed.

Lemma other_provider_models_spec (ms : list value) (others : list dict) :
  other_provider_models_from ms = Ok others ->
  others = filter is_other (as_dicts ms).
Proof.
  revert others. induction ms as [| m ms IH]; intros others H.
  - now injection H.
  - cbn [other_provider_models_from] in H.
    destruct m; try discriminate H.
    destruct (dict_item d "providerId") as [p |] eqn:Hp; [| discriminate H].
    cbn [bind] in H.
    destruct (other_provider_models_from ms) as [rest |]; [| discriminate H].
    cbn [bind] in H. injection H as <-.
    apply dict_item_get in Hp.
    change (as_dicts (VDict d :: ms)) with (d :: as_dicts ms).
    cbn [filter]. unfold is_other at 1, is_managed. rewrite Hp.
    rewrite <- (IH rest eq_refl).
    unfold in_strs, managed_provider_ids. cbn [existsb].
    now destruct (eq_str p "google" || _).
Qed.

Lemma in_strs_managed (p : value) :
  in_strs p managed_provider_ids = true ->
  exists ps, p = VStr ps /\ In ps managed_provider_ids.
Proof.
  unfold in_strs. rewrite existsb_exists. intros (ps & Hin & He).
  apply py_eq_str_r in He. now exists ps.
Qed.

Ltac eqb_to_eq :=
  repeat match goal with
    | H : (_ =? _)%Z = true |- _ => apply Z.eqb_eq in H
    | H : (_ =? _)%string = true |- _ => apply String.eqb_eq in H
    | H : Bool.eqb _ _ = true |- _ => apply Bool.eqb_prop in H
    | |- (_ =? _)%Z = true => apply Z.eqb_eq
    | |- (_ =? _)%string = true => apply String.eqb_eq
    | |- Bool.eqb _ _ = true => apply Bool.eqb_true_iff
    end.

(** On hashable values [==] is transitive. *)
Lemma py_eq_trans_hashable (a b c : value) :
  hashable b = true ->
  py_eq a b = true -> py_eq b c = true -> py_eq a c = true.
Proof.
  destruct a, b, c; cbn; intros Hb H1 H2; try discriminate; try reflexivity;
    eqb_to_eq; subst; try reflexivity; try congruence;
    repeat match goal with x : bool |- _ => destruct x end;
    cbn in *; congruence.
Qed.

Lemma table_set_entries (ms : list value) (k : key) (m : dict) (t : table) :
  Forall (table_entry_ok ms) t ->
  table_entry_ok ms (k, m) ->
  Forall (table_entry_ok ms) (table_set k m t).
Proof.
  intros Ht Hk. induction Ht as [| [k' m'] t Hx Ht IH]; cbn.
  - now constructor.
  - destruct (key_eqb k k') eqn:E.
    + constructor; [| exact Ht].
      destruct Hx as (H1 & H2 & _ & _).
      destruct Hk as (H3 & H4 & Hin & p & i & Hrk & Hke).
      repeat split; try assumption.
      exists p, i. split; [exact Hrk |].
      unfold key_eqb in *. cbn [fst snd] in *.
      apply andb_true_iff in Hke. destruct Hke as [Ha Hb].
      apply andb_true_iff in E. destruct E as [Ea Eb].
      apply andb_true_iff. split.
      * now apply (py_eq_trans_hashable p (fst k) (fst k')).
      * now apply (py_eq_trans_hashable i (snd k) (snd k')).
    + constructor; [exact Hx | exact IH].
Qed.

Lemma existing_managed_models_entries (all ms : list value) (t0 t : table) :
  (forall m, In m ms -> In m all) ->
  Forall (table_entry_ok all) t0 ->
  existing_managed_models_from ms t0 = Ok t ->
  Forall (table_entry_ok all) t.
Proof.
  revert t0. induction ms as [| m ms IH]; intros t0 Hsub Ht0 H.
  - now injection H as <-.
  - cbn [existing_managed_models_from] in H.
    destruct m; try discriminate H.
    destruct (dict_item d "providerId") as [p |] eqn:Hp; [| discriminate H].
    cbn [bind] in H.
    assert (Hsub' : forall m, In m ms -> In m all) by (intros m Hm; apply Hsub; now right).
    destruct (in_strs p managed_provider_ids) eqn:Hman; [| now apply (IH t0)].
    destruct (dict_item d "id") as [i |] eqn:Hi; [| discriminate H].
    cbn [bind] in H.
    destruct (hashable i) eqn:Hh; [| discriminate H].
    apply (IH (table_set (p, i) d t0)); try assumption.
    apply table_set_entries; [exact Ht0 |].
    apply in_strs_managed in Hman. destruct Hman as (ps & -> & _).
    apply dict_item_get in Hp, Hi.
    repeat split; try assumption; try reflexivity.
    + apply Hsub. now left.
    + exists (VStr ps), i. split.
      * unfold record_key. now rewrite Hp, Hi.
      * unfold key_eqb. cbn [fst snd py_eq]. rewrite String.eqb_refl. cbn [andb].
        destruct i; try discriminate Hh; cbn;
          auto using String.eqb_refl, Z.eqb_refl, Bool.eqb_reflx.
Qed.

Lemma table_get_In (k : key) (t : table) (e : dict) :
  table_get k t = Some e -> exists k0, In (k0, e) t /\ key_eqb k k0 = true.
Proof.
  induction t as [| [k0 m] t IH]; cbn; [discriminate |].
  destruct (key_eqb k k0) eqn:E; intros H.
  - injection H as ->. exists k0. split; [now left | exact E].
  - destruct (IH H) as (k1 & Hin & Hk). exists k1. split; [now right | exact Hk].
Qed.

Lemma table_del_In (k : key) (t : table) (x : key * dict) :
  In x (table_del k t) -> In x t.
Proof.
  induction t as [| [k0 m] t IH]; cbn; [tauto |].
  destruct (key_eqb k k0); cbn; [tauto |].
  intros [H | H]; [now left | right; now apply IH].
Qed.

(** Where a record of the merged list comes from: a candidate as it
    is, or a candidate with the flags of an entry of the table. *)
Lemma merge_candidates_In (refresh : bool) (fetched : list dict) (t : table) (u : dict) :
  In u (merge_candidates refresh fetched t) ->
  exists f, In f fetched /\
    (u = f \/
     exists k e, In (k, e) t /\ key_eqb (lookup_key f) k = true /\
                 u = preserve_flags refresh e f).
Proof.
  revert t. induction fetched as [| f rest IH]; intros t; cbn [merge_candidates];
    [intros [] |].
  fold (lookup_key f).
  destruct (table_get (lookup_key f) t) as [e |] eqn:He; cbn [In].
  - intros [<- | Hin].
    + exists f. split; [now left | right].
      apply table_get_In in He. destruct He as (k0 & Hin & Hk). now exists k0, e.
    + destruct (IH _ Hin) as (g & Hg & [-> | (k & e' & Hke & Hk & ->)]).
      * exists g. split; [now right | now left].
      * exists g. split; [now right | right].
        exists k, e'. split; [| now split]. eapply table_del_In, Hke.
  - intros [<- | Hin].
    + exists f. split; [now left | now left].
    + destruct (IH _ Hin) as (g & Hg & Hu). exists g. split; [now right | exact Hu].
Qed.

Lemma preserve_flags_refresh (e f : dict) :
  is_candidate f -> preserve_flags true e f = f.
Proof. now intros []. Qed.

Lemma preserve_flags_record_key (refresh : bool) (e f : dict) :
  is_candidate f -> record_key (preserve_flags refresh e f) = record_key f.
Proof. now intros []. Qed.

Lemma merge_candidates_keys (refresh : bool) (fetched : list dict) (t : table) :
  Forall is_candidate fetched ->
  map record_key (merge_candidates refresh fetched t) = map record_key fetched.
Proof.
  intros H. revert t. induction H as [| f rest Hf Hrest IH]; intros t; [reflexivity |].
  cbn [merge_candidates map].
  destruct (table_get _ t); cbn [map]; rewrite IH;
    [now rewrite preserve_flags_record_key | reflexivity].
Qed.

(** ** The probe *)

Lemma candidate_entry (f : dict) : is_candidate f -> is_entry f.
Proof. intros []. now constructor. Qed.

Lemma preserve_flags_is_entry (refresh : bool) (e f : dict) :
  is_candidate f -> is_entry (preserve_flags refresh e f).
Proof. intros []. rewrite preserve_flags_entry. now constructor. Qed.

Lemma merge_candidates_entries (refresh : bool) (fetched : list dict) (t : table) :
  Forall is_candidate fetched ->
  Forall is_entry (merge_candidates refresh fetched t).
Proof.
  intros H. revert t. induction H as [| f rest Hf Hrest IH]; intros t;
    cbn [merge_candidates]; [constructor |].
  destruct (table_get _ t); constructor; auto using candidate_entry, preserve_flags_is_entry.
Qed.

Lemma probe_model_entry (probe : value -> bool) (m : dict) :
  is_entry m ->
  probe_model probe m = Ok (probed probe m) /\
  (probed probe m = m \/ probed probe m = dict_set "multiModal" (VBool true) m).
Proof.
  intros []. unfold probed, probe_model.
  set (r := schema_entry _ _ _ _ _ _ _ _ _ _).
  change (dict_get_default "providerId" VNone r) with (VStr ps).
  change (dict_get_default "id" (VStr "") r) with (VStr i).
  change (dict_get "id" r) with (Some (VStr i)).
  cbn [as_str bind].
  destruct (py_eq (VStr ps) (VStr "openai")); [| now split; [| left]].
  destruct (startswith "gpt-4o" (lower i) || startswith "o" (lower i)
            || startswith "gpt-5" (lower i)); [| now split; [| left]].
  destruct (probe (VStr i)); split; auto.
Qed.

Lemma probed_is_entry (probe : value -> bool) (m : dict) :
  is_entry m -> is_entry (probed probe m).
Proof.
  intros Hm. destruct (probe_model_entry probe m Hm) as [_ [-> | ->]]; [exact Hm |].
  destruct Hm. now constructor.
Qed.

Lemma probed_get (probe : value -> bool) (m : dict) (k : string) :
  is_entry m -> k <> "multiModal" ->
  dict_get k (probed probe m) = dict_get k m.
Proof.
  intros Hm Hk. destruct (probe_model_entry probe m Hm) as [_ [-> | ->]]; [reflexivity |].
  rewrite dict_get_set. destruct (String.eqb k "multiModal") eqn:E; [| reflexivity].
  apply String.eqb_eq in E. contradiction.
Qed.

Lemma probed_record_key (probe : value -> bool) (m : dict) :
  is_entry m -> record_key (probed probe m) = record_key m.
Proof.
  intros Hm. unfold record_key. now rewrite !probed_get by (assumption || discriminate).
Qed.

Lemma probe_models_entries (enabled : bool) (probe : value -> bool) (l : list dict) :
  Forall is_entry l -> probe_models enabled probe l = Ok (probed_models enabled probe l).
Proof.
  unfold probe_models, probed_models. destruct enabled; [| reflexivity].
  induction 1 as [| m l Hm Hl IH]; cbn [mapM map]; [reflexivity |].
  destruct (probe_model_entry probe m Hm) as [-> _]. cbn [bind].
  now rewrite IH.
Qed.

Lemma probed_models_entries (enabled : bool) (probe : value -> bool) (l : list dict) :
  Forall is_entry l -> Forall is_entry (probed_models enabled probe l).
Proof.
  unfold probed_models. destruct enabled; [| auto].
  intros H. apply Forall_map. eapply Forall_impl; [| exact H].
  intros m. apply probed_is_entry.
Qed.

Lemma probed_models_keys (enabled : bool) (probe : value -> bool) (l : list dict) :
  Forall is_entry l ->
  map record_key (probed_models enabled probe l) = map record_key l.
Proof.
  unfold probed_models. destruct enabled; [| reflexivity].
  induction 1 as [| m l Hm Hl IH]; cbn [map]; [reflexivity |].
  now rewrite IH, probed_record_key.
Qed.

(** ** The sort *)

Lemma insert_by_key_perm (x : key * dict) (l r : list (key * dict)) :
  insert_by_key x l = Ok r -> Permutation r (x :: l).
Proof.
  revert r. induction l as [| y l IH]; cbn [insert_by_key]; intros r H.
  - now injection H as <-.
  - destruct (tuple_lt (fst y) (fst x)) as [[|] |]; cbn [bind] in H; try discriminate H.
    + destruct (insert_by_key x l) as [r' |]; [| discriminate H].
      cbn [bind] in H. injection H as <-.
      rewrite (IH r' eq_refl). apply perm_swap.
    + now injection H as <-.
Qed.

Lemma sort_by_key_perm (l s : list (key * dict)) :
  sort_by_key l = Ok s -> Permutation s l.
Proof.
  revert s. induction l as [| x l IH]; cbn [sort_by_key]; intros s H.
  - now injection H as <-.
  - destruct (sort_by_key l) as [s' |]; [| discriminate H].
    cbn [bind] in H. apply insert_by_key_perm in H.
    rewrite H. now rewrite (IH s' eq_refl).
Qed.

Lemma mapM_with_key_snd (l : list dict) (keyed : list (key * dict)) :
  mapM with_key l = Ok keyed -> map snd keyed = l.
Proof.
  revert keyed. induction l as [| x l IH]; cbn [mapM]; intros keyed H.
  - now injection H as <-.
  - unfold with_key at 1 in H.
    destruct (sort_key x) as [k |]; [| discriminate H]. cbn [bind] in H.
    destruct (mapM with_key l) as [ys |]; [| discriminate H].
    cbn [bind] in H. injection H as <-. cbn. now rewrite (IH ys eq_refl).
Qed.

Lemma sorted_perm (l out : list dict) : sorted l = Ok out -> Permutation out l.
Proof.
  unfold sorted. fold with_key. intros H.
  destruct (mapM with_key l) as [keyed |] eqn:Hk; [| discriminate H].
  cbn [bind] in H.
  destruct (sort_by_key keyed) as [s |] eqn:Hs; [| discriminate H].
  cbn [bind] in H. injection H as <-.
  apply sort_by_key_perm in Hs. apply mapM_with_key_snd in Hk.
  rewrite <- Hk. now apply Permutation_map.
Qed.

(** ** The run, stage by stage *)

Lemma final_models_list_stages (env : environment) (out : list dict) :
  final_models_list env = Ok out ->
  exists ms t,
    py_iter (load_models (models_json env)) = Ok ms /\
    existing_managed_models_from ms [] = Ok t /\
    other_provider_models_from ms = Ok (filter is_other (as_dicts ms)) /\
    sorted (updated_managed_models_list env t ++ filter is_other (as_dicts ms))
    = Ok out.
Proof.
  unfold final_models_list. intros H.
  destruct (py_iter (load_models (models_json env))) as [ms |] eqn:Hms;
    [| discriminate H].
  cbn [bind] in H.
  destruct (existing_managed_models_from ms []) as [t |] eqn:Ht; [| discriminate H].
  cbn [bind] in H.
  destruct (other_provider_models_from ms) as [others |] eqn:Ho; [| discriminate H].
  cbn [bind] in H.
  pose proof (all_fetched_candidates env) as Hc.
  rewrite (merge_models_candidates _ _ t Hc) in H. cbn [bind] in H.
  rewrite probe_models_entries in H by now apply merge_candidates_entries.
  cbn [bind] in H.
  pose proof (other_provider_models_spec ms others Ho) as ->.
  exists ms, t. repeat split; assumption.
Qed.

Lemma updated_entries (env : environment) (t : table) :
  Forall is_entry (updated_managed_models_list env t).
Proof.
  apply probed_models_entries, merge_candidates_entries, all_fetched_candidates.
Qed.

Lemma updated_keys (env : environment) (t : table) :
  map record_key (updated_managed_models_list env t)
  = map record_key (all_fetched_api_models env).
Proof.
  unfold updated_managed_models_list.
  rewrite probed_models_keys by apply merge_candidates_entries, all_fetched_candidates.
  apply merge_candidates_keys, all_fetched_candidates.
Qed.

Lemma entry_is_managed (r : dict) : is_entry r -> is_managed r = true.
Proof.
  intros [i pn ps nm mm cs gi ar ai sr Hps]. unfold is_managed.
  change (dict_get "providerId" (schema_entry (VStr i) (VStr pn) (VStr ps) nm mm cs gi ar ai sr))
    with (Some (VStr ps)).
  unfold in_strs. apply existsb_exists. exists ps. split; [assumption |].
  apply py_eq_str_r. reflexivity.
Qed.

Lemma is_other_filter (l : list dict) (r : dict) :
  In r (filter is_other l) -> is_managed r = false.
Proof.
  rewrite filter_In. unfold is_other. intros [_ H]. now apply negb_true_iff.
Qed.

(** A managed record of the output is a record of the updated list. *)
Lemma final_managed_updated (env : environment) (out : list dict) (r : dict) :
  final_models_list env = Ok out ->
  In r out -> is_managed r = true ->
  exists ms t,
    py_iter (load_models (models_json env)) = Ok ms /\
    existing_managed_models_from ms [] = Ok t /\
    In r (updated_managed_models_list env t).
Proof.
  intros H Hin Hman.
  destruct (final_models_list_stages env out H) as (ms & t & Hms & Ht & _ & Hs).
  exists ms, t. repeat split; try assumption.
  apply sorted_perm in Hs.
  apply (Permutation_in _ Hs), in_app_or in Hin.
  destruct Hin as [Hin | Hin]; [exact Hin |].
  apply is_other_filter in Hin. congruence.
Qed.

(** ** Records of the output *)

Lemma filter_perm {A : Type} (f : A -> bool) (l l' : list A) :
  Permutation l l' -> Permutation (filter f l) (filter f l').
Proof.
  induction 1 as [| x l l' _ IH | x y l | l l' l'' _ IH1 _ IH2]; cbn.
  - constructor.
  - destruct (f x); [now constructor | exact IH].
  - destruct (f x), (f y); try reflexivity. apply perm_swap.
  - now transitivity (filter f l').
Qed.

Lemma filter_none {A : Type} (f : A -> bool) (l : list A) :
  (forall x, In x l -> f x = false) -> filter f l = [].
Proof.
  induction l as [| x l IH]; cbn; intros H; [reflexivity |].
  rewrite (H x) by now left. apply IH. intros y Hy. apply H. now right.
Qed.

Lemma filter_idem {A : Type} (f : A -> bool) (l : list A) :
  filter f (filter f l) = filter f l.
Proof.
  induction l as [| x l IH]; cbn; [reflexivity |].
  destruct (f x) eqn:E; cbn; rewrite ?E, IH; reflexivity.
Qed.

Lemma candidate_normalized (f : dict) : is_candidate f -> reasoning_normalized f.
Proof.
  intros [i pn ps nm mm cs gi ar ai sr _ Hn]. unfold reasoning_normalized. cbn.
  intros [= ->]. now rewrite Hn.
Qed.

Lemma probed_normalized (probe : value -> bool) (m : dict) :
  is_entry m -> reasoning_normalized m -> reasoning_normalized (probed probe m).
Proof.
  unfold reasoning_normalized. intros Hm H.
  now rewrite !probed_get by (assumption || discriminate).
Qed.

Lemma probed_models_In (enabled : bool) (probe : value -> bool) (l : list dict) (r : dict) :
  In r (probed_models enabled probe l) ->
  exists u, In u l /\ (r = u \/ r = probed probe u).
Proof.
  unfold probed_models. destruct enabled.
  - rewrite in_map_iff. intros (u & <- & Hu). exists u. auto.
  - intros H. exists r. auto.
Qed.

Lemma candidate_record_key (f : dict) :
  is_candidate f ->
  exists ps i, In ps managed_provider_ids /\
    lookup_key f = (VStr ps, VStr i) /\
    record_key f = (Some (VStr ps), Some (VStr i)).
Proof. intros [i pn ps]. now exists ps, i. Qed.

(** A record whose flags were taken from the table has the key of a
    record of the prior catalog. *)
Lemma preserved_from_prior (ms : list value) (t : table) (k : key) (e f : dict) :
  Forall (table_entry_ok ms) t ->
  is_candidate f ->
  In (k, e) t -> key_eqb (lookup_key f) k = true ->
  In e (as_dicts ms) /\ record_key e = record_key f.
Proof.
  intros Ht Hf Hin Hk.
  rewrite Forall_forall in Ht. specialize (Ht _ Hin).
  destruct Ht as (_ & _ & Hms & p & i & Hrk & Hke).
  destruct (candidate_record_key f Hf) as (ps & i' & _ & Hl & Hr).
  rewrite Hl in Hk. apply key_eqb_str in Hk. subst k.
  unfold key_eqb in Hke. cbn [fst snd] in Hke.
  apply andb_true_iff in Hke. destruct Hke as [Hp Hi].
  apply py_eq_str_r in Hp, Hi. subst p i.
  split; [now apply in_as_dicts | congruence].
Qed.

Lemma is_managed_record_key (r o : dict) :
  record_key r = record_key o -> is_managed r = is_managed o.
Proof. unfold record_key, is_managed. now intros [= -> _]. Qed.

Lemma prior_records_iter (env : environment) (ms : list value) :
  py_iter (load_models (models_json env)) = Ok ms -> prior_records env = as_dicts ms.
Proof. unfold prior_records. now intros ->. Qed.

(** C2 (as amended).  The normalization is the last step of the
    classifier, after the provider-specific rules, whatever they did:
    in every result of the classifier, if [supportsReasoning] is false
    then [isAdvancedReasoner] is false.  In the output of a run the same
    holds for every record of a managed provider that was merged in
    refresh mode, or whose key no record of the prior catalog has.  (A
    record merged with refresh off carries the prior catalog's flag
    values as they are.) *)
Theorem fresh_managed_records_normalized :
  (forall (model_id display_name provider_short_id : value)
          (api_data : option dict) (caps : dict),
      apply_heuristics_for_new_model model_id display_name provider_short_id
        api_data = Ok caps ->
      reasoning_normalized caps) /\
  (forall (env : environment) (out : list dict) (r : dict),
      final_models_list env = Ok out ->
      In r out -> is_managed r = true ->
      (refresh_caps env = true \/
       forall e, In e (prior_records env) -> record_key e <> record_key r) ->
      reasoning_normalized r).
Proof.
  split.
  { intros m dn p api caps H. apply apply_heuristics_inv in H.
    destruct H as (_ & mm & cs & gi & ar & ai & sr & _ & -> & Hn).
    unfold reasoning_normalized. cbn. intros [= ->]. now rewrite Hn. }
  intros env out r H Hin Hman Hfresh.
  destruct (final_managed_updated env out r H Hin Hman) as (ms & t & Hms & Ht & Hu).
  rewrite (prior_records_iter env ms Hms) in Hfresh.
  pose proof (all_fetched_candidates env) as Hc.
  assert (Htab : Forall (table_entry_ok ms) t).
  { apply (existing_managed_models_entries ms ms [] t); auto. }
  apply probed_models_In in Hu. destruct Hu as (u & Hu & Hr).
  assert (Hent : is_entry u).
  { pose proof (merge_candidates_entries (refresh_caps env) _ t Hc) as He.
    rewrite Forall_forall in He. now apply He. }
  assert (Hkey : record_key r = record_key u).
  { destruct Hr as [-> | ->]; [reflexivity | now apply probed_record_key]. }
  assert (Hnu : reasoning_normalized u).
  { apply merge_candidates_In in Hu.
    destruct Hu as (f & Hf & Hu).
    assert (Hcf : is_candidate f) by (rewrite Forall_forall in Hc; now apply Hc).
    destruct Hu as [-> | (k & e & Hke & Hk & ->)]; [now apply candidate_normalized |].
    destruct Hfresh as [Hrefresh | Hnew].
    - rewrite Hrefresh, preserve_flags_refresh by assumption.
      now apply candidate_normalized.
    - exfalso.
      destruct (preserved_from_prior ms t k e f Htab Hcf Hke Hk) as [He Hrk].
      apply (Hnew e He).
      rewrite Hkey, preserve_flags_record_key by assumption. exact Hrk. }
  destruct Hr as [-> | ->]; [exact Hnu | now apply probed_normalized].
Qed.

(** C3 (as amended).  When the raw fetch raises, or the transformation of
    a descriptor raises, the fetch-and-transform step does not raise: it
    returns the candidates built before the failure (none when the fetch
    itself failed, those of the preceding descriptors otherwise).  The
    run goes on: whichever of the three providers fails, the candidates
    of the other two are fetched and handed to the merge as usual. *)
Theorem fetch_failure_keeps_transformed_prefix :
  (forall (fetch : unit -> result (list dict)) (pn ps : string) (done : list dict),
      fails_after fetch pn ps done ->
      fetch_and_transform_models fetch pn ps = done) /\
  (forall (env : environment) (done : list dict),
      fails_after (raw_fetch_google env) "Google Generative AI" "google" done ->
      all_fetched_api_models env
      = done
        ++ fetch_and_transform_models (raw_fetch_openai env) "OpenAI" "openai"
        ++ fetch_and_transform_models (raw_fetch_anthropic env) "Anthropic" "anthropic") /\
  (forall (env : environment) (done : list dict),
      fails_after (raw_fetch_openai env) "OpenAI" "openai" done ->
      all_fetched_api_models env
      = fetch_and_transform_models (raw_fetch_google env) "Google Generative AI" "google"
        ++ done
        ++ fetch_and_transform_models (raw_fetch_anthropic env) "Anthropic" "anthropic") /\
  (forall (env : environment) (done : list dict),
      fails_after (raw_fetch_anthropic env) "Anthropic" "anthropic" done ->
      all_fetched_api_models env
      = fetch_and_transform_models (raw_fetch_google env) "Google Generative AI" "google"
        ++ fetch_and_transform_models (raw_fetch_openai env) "OpenAI" "openai"
        ++ done).
Proof.
  assert (Hstep : forall fetch pn ps done,
             fails_after fetch pn ps done ->
             fetch_and_transform_models fetch pn ps = done).
  { intros fetch pn ps done [e He | pre post done' d e Hf Hpre Hd];
      unfold fetch_and_transform_models.
    - now rewrite He.
    - rewrite Hf. now apply transform_loop_app_raise with (e := e). }
  repeat split; try exact Hstep;
    intros env done H; unfold all_fetched_api_models; now rewrite (Hstep _ _ _ _ H).
Qed.

(** C5.  A managed record of the prior catalog whose key no fetched
    candidate has is not in the output, and no record of the output has
    its key. *)
Theorem stale_managed_records_dropped (env : environment) (out : list dict)
  (r : dict) :
  final_models_list env = Ok out ->
  In r (prior_records env) -> is_managed r = true ->
  (forall f, In f (all_fetched_api_models env) -> record_key f <> record_key r) ->
  ~ In r out /\ forall o, In o out -> record_key o <> record_key r.
Proof.
  intros H Hr Hman Hstale.
  assert (Hkeys : forall o, In o out -> record_key o <> record_key r).
  { intros o Ho Heq.
    assert (Hmo : is_managed o = true)
      by (rewrite (is_managed_record_key o r Heq); exact Hman).
    destruct (final_managed_updated env out o H Ho Hmo) as (ms & t & _ & _ & Hu).
    apply (in_map record_key) in Hu. rewrite updated_keys in Hu.
    apply in_map_iff in Hu. destruct Hu as (f & Hf & Hin).
    apply (Hstale f Hin). congruence. }
  split; [| exact Hkeys].
  intros Hin. now apply (Hkeys r Hin).
Qed.

(** C7.  The records of the other providers in the output are the
    records of the other providers in the prior catalog, each unchanged
    and as many times as it occurs there. *)
Theorem other_provider_records_pass_through (env : environment) (out : list dict) :
  final_models_list env = Ok out ->
  Permutation (filter is_other out) (filter is_other (prior_records env)).
Proof.
  intros H.
  destruct (final_models_list_stages env out H) as (ms & t & Hms & _ & _ & Hs).
  rewrite (prior_records_iter env ms Hms).
  apply sorted_perm in Hs. rewrite (filter_perm is_other _ _ Hs).
  rewrite filter_app, filter_idem, filter_none; [reflexivity |].
  intros x Hx. unfold is_other. apply negb_false_iff, entry_is_managed.
  pose proof (updated_entries env t) as He. rewrite Forall_forall in He. now apply He.
Qed.

(** C8 (as amended).  When the fetched candidates have pairwise distinct
    keys and the other-provider records of the prior catalog have
    pairwise distinct keys, the records of the output have pairwise
    distinct [(providerId, id)] keys. *)
Theorem output_keys_unique (env : environment) (out : list dict) :
  final_models_list env = Ok out ->
  NoDup (map record_key (all_fetched_api_models env)) ->
  NoDup (map record_key (filter is_other (prior_records env))) ->
  NoDup (map record_key out).
Proof.
  intros H Hf Ho.
  destruct (final_models_list_stages env out H) as (ms & t & Hms & _ & _ & Hs).
  rewrite (prior_records_iter env ms Hms) in Ho.
  apply sorted_perm, (Permutation_map record_key), Permutation_sym in Hs.
  apply (Permutation_NoDup Hs).
  rewrite map_app, updated_keys.
  apply NoDup_app; try assumption.
  intros k Hk1 Hk2.
  apply in_map_iff in Hk1, Hk2.
  destruct Hk1 as (f & <- & Hin1). destruct Hk2 as (o & Heq & Hin2).
  apply is_other_filter in Hin2.
  pose proof (all_fetched_candidates env) as Hc. rewrite Forall_forall in Hc.
  rewrite (is_managed_record_key o f Heq) in Hin2.
  rewrite (entry_is_managed f) in Hin2; [discriminate |].
  now apply candidate_entry, Hc.
Qed.

Lemma entry_has_flags (r : dict) (flag : string) :
  is_entry r -> In flag FLAGS -> dict_mem flag r = true.
Proof.
  intros [] Hin. unfold FLAGS in Hin. simpl in Hin.
  repeat (destruct Hin as [<- | Hin]; [reflexivity |]). contradiction.
Qed.

(** C10.  For a string model id, a display name that is a string or
    false, any provider id and any raw metadata, the classifier returns
    a mapping whose keys are exactly the six capability flags, each with
    a boolean; and every record of a managed provider in the output of a
    run defines all six flags, whatever the matching record of the prior
    catalog defined. *)
Theorem classifier_and_output_define_six_flags :
  (forall (model_id : string) (display_name provider_short_id : value)
          (api_data : option dict),
      name_like display_name ->
      exists caps,
        apply_heuristics_for_new_model (VStr model_id) display_name
          provider_short_id api_data = Ok caps /\
        map fst caps = FLAGS /\
        Forall (fun kv => exists b, snd kv = VBool b) caps) /\
  (forall (env : environment) (out : list dict) (r : dict),
      final_models_list env = Ok out ->
      In r out -> is_managed r = true ->
      forall flag, In flag FLAGS -> dict_mem flag r = true).
Proof.
  split.
  - intros model_id dn p api Hdn.
    destruct (apply_heuristics_capabilities model_id dn p api Hdn)
      as (mm & cs & gi & ar & ai & sr & Hc & _).
    exists (capabilities mm cs gi ar ai sr).
    split; [exact Hc |]. split; [reflexivity |].
    repeat constructor; cbn; eauto.
  - intros env out r H Hin Hman flag Hflag.
    destruct (final_managed_updated env out r H Hin Hman) as (ms & t & _ & _ & Hu).
    pose proof (updated_entries env t) as He. rewrite Forall_forall in He.
    apply entry_has_flags; [now apply He | exact Hflag].
Qed.

(** ** The order of the keys *)

Lemma string_compare_refl (s : string) : (s ?= s)%string = Eq.
Proof.
  pose proof (String.compare_antisym s s) as H.
  now destruct (s ?= s)%string.
Qed.

Lemma string_compare_lt_trans (a b c : string) :
  (a ?= b)%string = Lt -> (b ?= c)%string = Lt -> (a ?= c)%string = Lt.
Proof.
  revert b c. induction a as [| x a IH]; intros [| y b] [| z c]; cbn;
    try discriminate; try reflexivity.
  unfold Ascii.compare.
  destruct (N_of_ascii x ?= N_of_ascii y)%N eqn:Exy;
    destruct (N_of_ascii y ?= N_of_ascii z)%N eqn:Eyz;
    intros H1 H2; try discriminate.
  - apply N.compare_eq_iff in Exy, Eyz. rewrite Exy, Eyz, N.compare_refl.
    now apply IH with b.
  - apply N.compare_eq_iff in Exy. now rewrite Exy, Eyz.
  - apply N.compare_eq_iff in Eyz. now rewrite <- Eyz, Exy.
  - pose proof (proj1 (N.compare_lt_iff _ _) Exy) as Lxy.
    pose proof (proj1 (N.compare_lt_iff _ _) Eyz) as Lyz.
    assert (E : (N_of_ascii x ?= N_of_ascii z)%N = Lt)
      by (apply N.compare_lt_iff; lia).
    now rewrite E.
Qed.

Lemma string_ltb_trans (a b c : string) :
  (a <? b)%string = true -> (b <? c)%string = true -> (a <? c)%string = true.
Proof.
  unfold String.ltb. intros H1 H2.
  destruct (a ?= b)%string eqn:E1; try discriminate.
  destruct (b ?= c)%string eqn:E2; try discriminate.
  now rewrite (string_compare_lt_trans a b c E1 E2).
Qed.

Lemma string_leb_trans (a b c : string) :
  (a <=? b)%string = true -> (b <=? c)%string = true -> (a <=? c)%string = true.
Proof.
  unfold String.leb. intros H1 H2.
  destruct (a ?= b)%string eqn:E1; try discriminate.
  - apply String.compare_eq_iff in E1. now subst b.
  - destruct (b ?= c)%string eqn:E2; try discriminate.
    + apply String.compare_eq_iff in E2. subst c. now rewrite E1.
    + now rewrite (string_compare_lt_trans a b c E1 E2).
Qed.

Lemma string_ltb_irrefl (a : string) : (a <? a)%string = false.
Proof. unfold String.ltb. now rewrite string_compare_refl. Qed.

Lemma string_ltb_asym (a b : string) :
  (a <? b)%string = true -> (b <? a)%string = false.
Proof.
  unfold String.ltb. rewrite (String.compare_antisym b a).
  now destruct (a ?= b)%string.
Qed.

(** Not below, and different: above. *)
Lemma string_ltb_total (a b : string) :
  (a <? b)%string = false -> a <> b -> (b <? a)%string = true.
Proof.
  unfold String.ltb. rewrite (String.compare_antisym b a).
  destruct (a ?= b)%string eqn:E; try discriminate; [| reflexivity].
  apply String.compare_eq_iff in E. contradiction.
Qed.

Lemma string_ltb_leb (a b : string) : (a <? b)%string = true -> (a <=? b)%string = true.
Proof. unfold String.ltb, String.leb. now destruct (a ?= b)%string. Qed.

Lemma string_leb_refl (a : string) : (a <=? a)%string = true.
Proof. unfold String.leb. now rewrite string_compare_refl. Qed.

Lemma pair_ltb_asym (a b : string * string) : pair_ltb a b = true -> pair_ltb b a = false.
Proof.
  unfold pair_ltb. destruct a as [p1 i1], b as [p2 i2]. cbn [fst snd].
  rewrite (String.eqb_sym p2 p1), (String.eqb_sym i2 i1).
  destruct (p1 =? p2)%string; cbn [negb]; [| apply string_ltb_asym].
  destruct (i1 =? i2)%string; cbn [negb]; [reflexivity | apply string_ltb_asym].
Qed.

Lemma key_ltb_false_le (a b : dict) : key_ltb b a = false -> key_le a b.
Proof.
  unfold key_ltb, pair_ltb, key_le.
  destruct (str_key a) as [p1 i1], (str_key b) as [p2 i2]. cbn [fst snd].
  destruct (p2 =? p1)%string eqn:Ep; cbn [negb].
  - apply String.eqb_eq in Ep. subst p2.
    destruct (i2 =? i1)%string eqn:Ei; cbn [negb]; intros H; right; split; try reflexivity.
    + apply String.eqb_eq in Ei. subst i2. apply string_leb_refl.
    + apply string_ltb_leb, string_ltb_total; [exact H |].
      intros ->. now rewrite String.eqb_refl in Ei.
  - intros H. left. apply string_ltb_total; [exact H |].
    intros ->. now rewrite String.eqb_refl in Ep.
Qed.

Lemma key_le_trans (a b c : dict) : key_le a b -> key_le b c -> key_le a c.
Proof.
  unfold key_le.
  destruct (str_key a) as [p1 i1], (str_key b) as [p2 i2], (str_key c) as [p3 i3].
  cbn [fst snd].
  intros [H1 | [-> H1]] [H2 | [-> H2]].
  - left. now apply string_ltb_trans with p2.
  - now left.
  - now left.
  - right. split; [reflexivity | now apply string_leb_trans with i2].
Qed.

Lemma tuple_lt_value_key (a b : dict) :
  tuple_lt (value_key a) (value_key b) = Ok (key_ltb a b).
Proof.
  unfold tuple_lt, value_key, key_ltb, pair_ltb. cbn [fst snd py_eq py_lt].
  destruct (str_key a) as [p1 i1], (str_key b) as [p2 i2]. cbn [fst snd].
  destruct (p1 =? p2)%string; cbn [negb]; [| reflexivity].
  destruct (i1 =? i2)%string; reflexivity.
Qed.

Lemma insert_by_key_keyed (x : dict) (l : list dict) :
  insert_by_key (value_key x, x) (keyed l) = Ok (keyed (insert_record x l)).
Proof.
  induction l as [| y l IH]; [reflexivity |].
  cbn [keyed map insert_by_key insert_record fst].
  rewrite tuple_lt_value_key. cbn [bind].
  destruct (key_ltb y x); [| reflexivity].
  fold (keyed l). rewrite IH. reflexivity.
Qed.

Lemma sort_by_key_keyed (l : list dict) :
  sort_by_key (keyed l) = Ok (keyed (sort_records l)).
Proof.
  induction l as [| x l IH]; [reflexivity |].
  cbn [keyed map sort_by_key sort_records]. fold (keyed l).
  rewrite IH. cbn [bind]. apply insert_by_key_keyed.
Qed.

Lemma with_key_str (r : dict) : has_str_key r = true -> with_key r = Ok (value_key r, r).
Proof.
  unfold has_str_key, with_key, sort_key, value_key, str_key, dict_item.
  destruct (dict_get "providerId" r) as [[] |]; try discriminate.
  destruct (dict_get "id" r) as [[] |]; try discriminate.
  reflexivity.
Qed.

Lemma mapM_with_key_str (l : list dict) :
  forallb has_str_key l = true -> mapM with_key l = Ok (keyed l).
Proof.
  induction l as [| x l IH]; cbn [forallb mapM]; [reflexivity |].
  intros H. apply andb_true_iff in H. destruct H as [Hx Hl].
  rewrite (with_key_str x Hx). cbn [bind]. now rewrite (IH Hl).
Qed.

Lemma keyed_snd (l : list dict) : map snd (keyed l) = l.
Proof. unfold keyed. rewrite map_map. cbn. apply map_id. Qed.

(** On records with string keys the sort returns, and returns the
    stable insertion sort by key. *)
Lemma sorted_str_keys (l : list dict) :
  forallb has_str_key l = true -> sorted l = Ok (sort_records l).
Proof.
  intros H. unfold sorted. fold with_key.
  rewrite (mapM_with_key_str l H). cbn [bind].
  rewrite sort_by_key_keyed. cbn [bind]. now rewrite keyed_snd.
Qed.

Lemma insert_record_sorted (x : dict) (l : list dict) :
  Sorted key_le l -> Sorted key_le (insert_record x l).
Proof.
  induction 1 as [| y l Hl IH Hy]; cbn [insert_record]; [repeat constructor |].
  destruct (key_ltb y x) eqn:E.
  - constructor; [exact IH |].
    destruct l as [| z l]; cbn [insert_record].
    + constructor. apply key_ltb_false_le. unfold key_ltb in *. now apply pair_ltb_asym.
    + destruct (key_ltb z x).
      * constructor. now inversion Hy.
      * constructor. apply key_ltb_false_le. unfold key_ltb in *. now apply pair_ltb_asym.
  - constructor; [now constructor |]. constructor. now apply key_ltb_false_le.
Qed.

Lemma sort_records_sorted (l : list dict) : Sorted key_le (sort_records l).
Proof.
  induction l as [| x l IH]; cbn [sort_records]; [constructor |].
  now apply insert_record_sorted.
Qed.

Lemma sort_records_strongly_sorted (l : list dict) : StronglySorted key_le (sort_records l).
Proof.
  apply Sorted_StronglySorted; [| apply sort_records_sorted].
  intros a b c. apply key_le_trans.
Qed.

Lemma insert_record_perm (x : dict) (l : list dict) : Permutation (insert_record x l) (x :: l).
Proof.
  induction l as [| y l IH]; cbn [insert_record]; [reflexivity |].
  destruct (key_ltb y x); [| reflexivity].
  rewrite IH. apply perm_swap.
Qed.

Lemma sort_records_perm (l : list dict) : Permutation (sort_records l) l.
Proof.
  induction l as [| x l IH]; cbn [sort_records]; [reflexivity |].
  now rewrite insert_record_perm, IH.
Qed.

(** ** Well-formed catalogs *)

Lemma has_str_key_fields (d : dict) :
  has_str_key d = true ->
  exists p i, dict_get "providerId" d = Some (VStr p) /\ dict_get "id" d = Some (VStr i).
Proof.
  unfold has_str_key.
  destruct (dict_get "providerId" d) as [[] |]; try discriminate.
  destruct (dict_get "id" d) as [[] |]; try discriminate.
  intros _. eauto.
Qed.

Lemma existing_managed_models_well_formed (ms : list value) (t0 : table) :
  forallb well_formed_record ms = true ->
  exists t, existing_managed_models_from ms t0 = Ok t.
Proof.
  revert t0. induction ms as [| m ms IH]; intros t0 H; [now exists t0 |].
  cbn [forallb] in H. apply andb_true_iff in H. destruct H as [Hm Hms].
  destruct m; try discriminate Hm. cbn [well_formed_record] in Hm.
  destruct (has_str_key_fields d Hm) as (p & i & Hp & Hi).
  cbn [existing_managed_models_from]. unfold dict_item. rewrite Hp, Hi. cbn [bind hashable].
  destruct (in_strs (VStr p) managed_provider_ids); now apply IH.
Qed.

Lemma other_provider_models_well_formed (ms : list value) :
  forallb well_formed_record ms = true ->
  exists others, other_provider_models_from ms = Ok others.
Proof.
  induction ms as [| m ms IH]; intros H; [now exists [] |].
  cbn [forallb] in H. apply andb_true_iff in H. destruct H as [Hm Hms].
  destruct m; try discriminate Hm. cbn [well_formed_record] in Hm.
  destruct (has_str_key_fields d Hm) as (p & i & Hp & Hi).
  destruct (IH Hms) as [rest Hrest].
  cbn [other_provider_models_from]. unfold dict_item. rewrite Hp, Hrest. cbn [bind].
  eauto.
Qed.

Lemma as_dicts_well_formed (ms : list value) :
  forallb well_formed_record ms = true ->
  ms = map VDict (as_dicts ms) /\ forallb has_str_key (as_dicts ms) = true.
Proof.
  induction ms as [| m ms IH]; intros H; [now split |].
  cbn [forallb] in H. apply andb_true_iff in H. destruct H as [Hm Hms].
  destruct m; try discriminate Hm. cbn [well_formed_record] in Hm.
  destruct (IH Hms) as [E1 E2].
  change (as_dicts (VDict d :: ms)) with (d :: as_dicts ms).
  cbn [map forallb]. rewrite <- E1, Hm, E2. now split.
Qed.

Lemma entry_has_str_key (r : dict) : is_entry r -> has_str_key r = true.
Proof. now intros []. Qed.

Lemma forallb_filter_keep {A : Type} (f g : A -> bool) (l : list A) :
  forallb f l = true -> forallb f (filter g l) = true.
Proof.
  rewrite !forallb_forall. intros H x Hx. apply filter_In in Hx. now apply H.
Qed.

Lemma forallb_Forall_entries (l : list dict) :
  Forall is_entry l -> forallb has_str_key l = true.
Proof.
  intros H. apply forallb_forall. rewrite Forall_forall in H.
  intros x Hx. now apply entry_has_str_key, H.
Qed.

(** The run on a well-formed catalog, as one expression. *)
Lemma final_models_list_well_formed (env : environment) :
  well_formed_catalog (models_json env) = true ->
  exists ms t,
    load_models (models_json env) = VList ms /\
    forallb well_formed_record ms = true /\
    existing_managed_models_from ms [] = Ok t /\
    final_models_list env
    = Ok (sort_records
            (updated_managed_models_list env t ++ filter is_other (as_dicts ms))).
Proof.
  unfold well_formed_catalog, final_models_list. intros H.
  destruct (load_models (models_json env)) as [| | | | ms |] eqn:Hl; try discriminate H.
  destruct (existing_managed_models_well_formed ms [] H) as [t Ht].
  destruct (other_provider_models_well_formed ms H) as [others Ho].
  exists ms, t. repeat split; try assumption.
  cbn [py_iter bind]. rewrite Ht, Ho. cbn [bind].
  pose proof (all_fetched_candidates env) as Hc.
  rewrite (merge_models_candidates _ _ t Hc). cbn [bind].
  rewrite probe_models_entries by now apply merge_candidates_entries.
  cbn [bind].
  rewrite (other_provider_models_spec ms others Ho).
  apply sorted_str_keys.
  rewrite forallb_app. apply andb_true_iff. split.
  - apply forallb_Forall_entries, updated_entries.
  - apply forallb_filter_keep, as_dicts_well_formed, H.
Qed.

(** C4 (as amended).  On a catalog whose records are objects with a
    string [providerId] and a string [id] (their other fields may be
    missing or unexpected), also when the file is missing, unreadable or
    not an object, the run completes without an unhandled exception,
    whatever the fetchers and the probe do; a failure to write the file
    is reported and not raised. *)
Theorem run_completes_on_well_formed_catalog (env : environment) :
  well_formed_catalog (models_json env) = true ->
  exists final,
    final_models_list env = Ok final /\
    main env = Ok (if write_succeeds env then Some final else None).
Proof.
  intros H. destruct (final_models_list_well_formed env H) as (ms & t & _ & _ & _ & Hf).
  eexists. split; [exact Hf |].
  unfold main. now rewrite Hf.
Qed.

(** C9.  On a catalog of records with string keys the run completes and
    its output is sorted ascending by [providerId], then by [id]; every
    record of the output has string keys. *)
Theorem output_sorted_by_provider_then_id (env : environment) :
  well_formed_catalog (models_json env) = true ->
  exists out,
    final_models_list env = Ok out /\
    forallb has_str_key out = true /\
    StronglySorted key_le out.
Proof.
  intros H. destruct (final_models_list_well_formed env H) as (ms & t & _ & Hms & _ & Hf).
  eexists. split; [exact Hf |]. split; [| apply sort_records_strongly_sorted].
  apply forallb_forall. intros x Hx.
  apply (Permutation_in _ (sort_records_perm _)), in_app_or in Hx.
  destruct Hx as [Hx | Hx].
  - pose proof (updated_entries env t) as He. rewrite Forall_forall in He.
    now apply entry_has_str_key, He.
  - apply filter_In in Hx. destruct Hx as [Hx _].
    destruct (as_dicts_well_formed ms Hms) as [_ Hk].
    rewrite forallb_forall in Hk. now apply Hk.
Qed.

(** ** Running twice *)

Lemma key_le_ltb_false (a b : dict) : key_le a b -> key_ltb b a = false.
Proof.
  unfold key_ltb, pair_ltb, key_le.
  destruct (str_key a) as [p1 i1], (str_key b) as [p2 i2]. cbn [fst snd].
  intros [H | [-> H]].
  - destruct (p2 =? p1)%string eqn:E; cbn [negb].
    + apply String.eqb_eq in E. subst p2. now rewrite string_ltb_irrefl in H.
    + now apply string_ltb_asym.
  - rewrite String.eqb_refl. cbn [negb].
    destruct (i2 =? i1)%string; cbn [negb]; [reflexivity |].
    unfold String.leb in H. unfold String.ltb.
    rewrite (String.compare_antisym i2 i1).
    now destruct (i1 ?= i2)%string.
Qed.

Lemma sort_records_sorted_id (l : list dict) : Sorted key_le l -> sort_records l = l.
Proof.
  induction 1 as [| x l Hl IH Hx]; cbn [sort_records]; [reflexivity |].
  rewrite IH. destruct Hx as [| y l Hxy]; cbn [insert_record]; [reflexivity |].
  now rewrite key_le_ltb_false.
Qed.

Lemma sort_records_app (a b : list dict) :
  sort_records (a ++ b) = fold_right insert_record (sort_records b) a.
Proof. induction a as [| x a IH]; cbn; [reflexivity | now rewrite IH]. Qed.

Lemma filter_insert_record_managed (x : dict) (l : list dict) :
  is_managed x = true -> filter is_other (insert_record x l) = filter is_other l.
Proof.
  intros Hx. induction l as [| y l IH]; cbn [insert_record filter].
  - unfold is_other. now rewrite Hx.
  - destruct (key_ltb y x); cbn [filter].
    + now rewrite IH.
    + unfold is_other at 1. now rewrite Hx.
Qed.

(** The other-provider records of a sorted output are the sorted
    other-provider records. *)
Lemma filter_other_sort_records (u o : list dict) :
  Forall is_entry u -> forallb is_other o = true ->
  filter is_other (sort_records (u ++ o)) = sort_records o.
Proof.
  intros Hu Ho. rewrite sort_records_app.
  induction Hu as [| x u Hx Hu IH]; cbn [fold_right].
  - apply forallb_filter_id. apply forallb_forall. intros y Hy.
    apply (Permutation_in _ (sort_records_perm o)) in Hy.
    rewrite forallb_forall in Ho. now apply Ho.
  - rewrite filter_insert_record_managed by now apply entry_is_managed.
    exact IH.
Qed.

Lemma sort_records_resorted (u o : list dict) :
  sort_records (u ++ sort_records o) = sort_records (u ++ o).
Proof.
  rewrite !sort_records_app.
  now rewrite (sort_records_sorted_id (sort_records o)) by apply sort_records_sorted.
Qed.

(** ** The table of a catalog with distinct managed keys *)

Lemma table_get_set_same (a b : string) (m : dict) (t : table) :
  table_get (VStr a, VStr b) (table_set (VStr a, VStr b) m t) = Some m.
Proof.
  induction t as [| [k0 m0] t IH]; cbn [table_set table_get].
  - now rewrite key_eqb_str_refl.
  - destruct (key_eqb (VStr a, VStr b) k0) eqn:E; cbn [table_get]; rewrite E; auto.
Qed.

Lemma table_get_set_other (a b a' b' : string) (m : dict) (t : table) :
  (a, b) <> (a', b') ->
  table_get (VStr a, VStr b) (table_set (VStr a', VStr b') m t)
  = table_get (VStr a, VStr b) t.
Proof.
  intros Hne.
  assert (Hk : key_eqb (VStr a, VStr b) (VStr a', VStr b') = false).
  { destruct (key_eqb _ _) eqn:E; [| reflexivity].
    apply key_eqb_str in E. injection E as <- <-. now contradiction Hne. }
  induction t as [| [k0 m0] t IH]; cbn [table_set table_get].
  - now rewrite Hk.
  - destruct (key_eqb (VStr a', VStr b') k0) eqn:E'; cbn [table_get].
    + apply key_eqb_str in E'. subst k0. now rewrite Hk.
    + now rewrite IH.
Qed.

Lemma str_key_fields (r : dict) :
  has_str_key r = true ->
  dict_get "providerId" r = Some (VStr (fst (str_key r))) /\
  dict_get "id" r = Some (VStr (snd (str_key r))).
Proof.
  unfold has_str_key, str_key.
  destruct (dict_get "providerId" r) as [[] |]; try discriminate.
  destruct (dict_get "id" r) as [[] |]; try discriminate.
  now split.
Qed.

Lemma record_key_str_key (r : dict) :
  has_str_key r = true ->
  record_key r = (Some (VStr (fst (str_key r))), Some (VStr (snd (str_key r)))).
Proof.
  intros H. destruct (str_key_fields r H) as [Hp Hi].
  unfold record_key. now rewrite <- Hp, <- Hi.
Qed.

Lemma str_key_record_key (r o : dict) :
  has_str_key r = true -> has_str_key o = true ->
  str_key r = str_key o -> record_key r = record_key o.
Proof.
  intros Hr Ho E. now rewrite (record_key_str_key r Hr), (record_key_str_key o Ho), E.
Qed.

(** One step of the dict comprehension on a record with string keys. *)
Lemma existing_managed_models_step (r : dict) (l : list dict) (t0 : table) :
  has_str_key r = true ->
  existing_managed_models_from (map VDict (r :: l)) t0
  = existing_managed_models_from (map VDict l)
      (if is_managed r then table_set (value_key r) r t0 else t0).
Proof.
  intros Hr. destruct (str_key_fields r Hr) as [Hp Hi].
  cbn [map existing_managed_models_from]. unfold dict_item, is_managed, value_key.
  rewrite Hp, Hi. cbn [bind hashable].
  now destruct (in_strs (VStr (fst (str_key r))) managed_provider_ids).
Qed.

Lemma table_from_untouched (l : list dict) (t0 t : table) (a b : string) :
  forallb has_str_key l = true ->
  existing_managed_models_from (map VDict l) t0 = Ok t ->
  (forall u, In u l -> is_managed u = true -> str_key u <> (a, b)) ->
  table_get (VStr a, VStr b) t = table_get (VStr a, VStr b) t0.
Proof.
  revert t0. induction l as [| r l IH]; intros t0 Hwf Hb Hno.
  - now injection Hb as <-.
  - cbn [forallb] in Hwf. apply andb_true_iff in Hwf. destruct Hwf as [Hr Hl].
    rewrite (existing_managed_models_step r l t0 Hr) in Hb.
    rewrite (IH _ Hl Hb) by (intros u Hu; apply Hno; now right).
    destruct (is_managed r) eqn:Hm; [| reflexivity].
    unfold value_key. apply table_get_set_other.
    intros E. apply (Hno r); [now left | exact Hm |].
    rewrite E. now destruct (str_key r).
Qed.

Lemma table_from_unique (l : list dict) (t0 t : table) (u : dict) :
  forallb has_str_key l = true ->
  existing_managed_models_from (map VDict l) t0 = Ok t ->
  NoDup (map str_key (filter is_managed l)) ->
  In u l -> is_managed u = true ->
  table_get (value_key u) t = Some u.
Proof.
  revert t0. induction l as [| r l IH]; intros t0 Hwf Hb Hnd Hin Hu; [contradiction |].
  cbn [forallb] in Hwf. apply andb_true_iff in Hwf. destruct Hwf as [Hr Hl].
  rewrite (existing_managed_models_step r l t0 Hr) in Hb.
  cbn [filter] in Hnd.
  destruct (is_managed r) eqn:Hm.
  - cbn [map] in Hnd. apply NoDup_cons_iff in Hnd. destruct Hnd as [Hnotin Hnd].
    destruct Hin as [<- | Hin]; [| now apply (IH _ Hl Hb Hnd)].
    unfold value_key.
    rewrite (table_from_untouched l _ t _ _ Hl Hb).
    + apply table_get_set_same.
    + intros v Hv Hmv E. apply Hnotin. apply in_map_iff. exists v.
      split; [| apply filter_In; now split].
      rewrite E. now destruct (str_key r).
  - destruct Hin as [<- | Hin]; [congruence |]. now apply (IH _ Hl Hb Hnd).
Qed.

(** ** The merge on candidates with distinct keys *)

Lemma merge_candidates_distinct (refresh : bool) (fetched : list dict) (t : table) :
  Forall is_candidate fetched ->
  NoDup (map lookup_key fetched) ->
  merge_candidates refresh fetched t = map (merge_one refresh t) fetched.
Proof.
  intros Hc. revert t. induction Hc as [| f rest Hf Hrest IH]; intros t Hnd; [reflexivity |].
  cbn [map] in Hnd. apply NoDup_cons_iff in Hnd. destruct Hnd as [Hnotin Hnd].
  cbn [merge_candidates map]. unfold merge_one at 1. fold (lookup_key f).
  destruct (table_get (lookup_key f) t) as [e |]; f_equal; rewrite (IH _ Hnd);
    [| reflexivity].
  apply map_ext_in. intros g Hg. unfold merge_one.
  rewrite Forall_forall in Hrest.
  destruct (candidate_lookup_key g (Hrest g Hg)) as (ps' & i' & Kg).
  destruct (candidate_lookup_key f Hf) as (ps & i & Kf).
  rewrite Kg, Kf. rewrite table_get_del_other; [reflexivity |].
  intros [= -> ->]. apply Hnotin. rewrite Kf, <- Kg. now apply in_map.
Qed.

Lemma over_candidate (f : dict) : is_candidate f -> over f f.
Proof. intros []. now constructor. Qed.

Lemma over_preserve_flags (refresh : bool) (e f : dict) :
  is_candidate f -> over f (preserve_flags refresh e f).
Proof. intros []. rewrite preserve_flags_entry. now constructor. Qed.

Lemma over_merge_one (refresh : bool) (t : table) (f : dict) :
  is_candidate f -> over f (merge_one refresh t f).
Proof.
  intros Hf. unfold merge_one.
  destruct (table_get _ t); auto using over_candidate, over_preserve_flags.
Qed.

Lemma over_is_entry (f u : dict) : over f u -> is_entry u.
Proof. intros []. now constructor. Qed.

Lemma over_probed (probe : value -> bool) (f u : dict) :
  over f u -> over f (probed probe u).
Proof.
  intros H. destruct (probe_model_entry probe u (over_is_entry f u H)) as [_ [-> | ->]];
    [exact H |].
  destruct H. now constructor.
Qed.

Lemma over_value_key (f u : dict) : over f u -> value_key u = lookup_key f.
Proof. now intros []. Qed.

(** Merging a candidate with a record that already is this candidate
    with its flags set gives that record again. *)
Lemma preserve_flags_over (f u : dict) : over f u -> preserve_flags false u f = u.
Proof. now intros []. Qed.

Lemma probed_idempotent (probe : value -> bool) (m : dict) :
  is_entry m -> probed probe (probed probe m) = probed probe m.
Proof.
  intros [i pn ps nm mm cs gi ar ai sr Hps]. unfold probed, probe_model.
  set (r := schema_entry _ _ _ _ _ _ _ _ _ _).
  change (dict_get_default "providerId" VNone r) with (VStr ps).
  change (dict_get_default "id" (VStr "") r) with (VStr i).
  change (dict_get "id" r) with (Some (VStr i)).
  cbn [as_str bind].
  destruct (py_eq (VStr ps) (VStr "openai")) eqn:E1.
  - destruct (startswith "gpt-4o" (lower i) || startswith "o" (lower i)
              || startswith "gpt-5" (lower i)) eqn:E2.
    + destruct (probe (VStr i)) eqn:E3.
      * change (dict_set "multiModal" (VBool true) r)
          with (schema_entry (VStr i) (VStr pn) (VStr ps) nm (VBool true) cs gi ar ai sr).
        set (r' := schema_entry _ _ _ _ (VBool true) _ _ _ _ _).
        change (dict_get_default "providerId" VNone r') with (VStr ps).
        change (dict_get_default "id" (VStr "") r') with (VStr i).
        change (dict_get "id" r') with (Some (VStr i)).
        cbn [as_str bind]. now rewrite E1, E2, E3.
      * change (dict_get_default "providerId" VNone r) with (VStr ps).
        change (dict_get_default "id" (VStr "") r) with (VStr i).
        change (dict_get "id" r) with (Some (VStr i)).
        cbn [as_str bind]. now rewrite E1, E2, E3.
    + change (dict_get_default "providerId" VNone r) with (VStr ps).
      change (dict_get_default "id" (VStr "") r) with (VStr i).
      cbn [as_str bind]. now rewrite E1, E2.
  - change (dict_get_default "providerId" VNone r) with (VStr ps). now rewrite E1.
Qed.

Lemma NoDup_map_transfer {A B C : Type} (f : A -> B) (g : A -> C) (l : list A) :
  (forall x y, In x l -> In y l -> g x = g y -> f x = f y) ->
  NoDup (map f l) -> NoDup (map g l).
Proof.
  induction l as [| a l IH]; cbn [map]; intros Hinj Hnd; [constructor |].
  apply NoDup_cons_iff in Hnd. destruct Hnd as [Hnotin Hnd].
  constructor.
  - intros Hin. apply in_map_iff in Hin. destruct Hin as (y & Hy & Hyl).
    apply Hnotin. apply in_map_iff. exists y. split; [| exact Hyl].
    apply Hinj; [now right | now left | exact Hy].
  - apply IH; [| exact Hnd]. intros x y Hx Hy. apply Hinj; now right.
Qed.

Lemma as_dicts_map (l : list dict) : as_dicts (map VDict l) = l.
Proof.
  induction l as [| x l IH]; [reflexivity |].
  change (as_dicts (map VDict (x :: l))) with (x :: as_dicts (map VDict l)).
  now rewrite IH.
Qed.

Lemma filter_all {A : Type} (f : A -> bool) (l : list A) :
  (forall x, In x l -> f x = true) -> filter f l = l.
Proof. intros H. apply forallb_filter_id, forallb_forall, H. Qed.

Lemma with_catalog_updated (env : environment) (out : list dict) (t : table) :
  updated_managed_models_list (with_catalog env out) t
  = updated_managed_models_list env t.
Proof. reflexivity. Qed.

Lemma with_catalog_load (env : environment) (out : list dict) :
  load_models (models_json (with_catalog env out)) = VList (map VDict out).
Proof. reflexivity. Qed.

Lemma forallb_well_formed_map (l : list dict) :
  forallb well_formed_record (map VDict l) = forallb has_str_key l.
Proof. induction l as [| x l IH]; cbn; [reflexivity | now rewrite IH]. Qed.

Lemma probed_models_settle (enabled : bool) (probe : value -> bool) (l : list dict) :
  probed_models enabled probe l = map (settle enabled probe) l.
Proof.
  unfold probed_models, settle. destruct enabled; [reflexivity |].
  now rewrite map_id.
Qed.

Lemma over_settle (enabled : bool) (probe : value -> bool) (f u : dict) :
  over f u -> over f (settle enabled probe u).
Proof. unfold settle. destruct enabled; [apply over_probed | auto]. Qed.

Lemma settle_idempotent (enabled : bool) (probe : value -> bool) (m : dict) :
  is_entry m -> settle enabled probe (settle enabled probe m) = settle enabled probe m.
Proof. unfold settle. destruct enabled; [apply probed_idempotent | auto]. Qed.

Lemma updated_distinct (env : environment) (t : table) :
  NoDup (map record_key (all_fetched_api_models env)) ->
  updated_managed_models_list env t
  = map (fun f => settle (enable_openai_probes env)
                    (probe_openai_model_supports_image env)
                    (merge_one (refresh_caps env) t f))
      (all_fetched_api_models env).
Proof.
  intros Hnd. unfold updated_managed_models_list.
  pose proof (all_fetched_candidates env) as Hc.
  rewrite probed_models_settle, merge_candidates_distinct, map_map; try assumption;
    [reflexivity |].
  apply (NoDup_map_transfer record_key lookup_key); [| exact Hnd].
  intros x y Hx Hy E. rewrite Forall_forall in Hc.
  destruct (candidate_record_key x (Hc x Hx)) as (? & ? & _ & Lx & Rx).
  destruct (candidate_record_key y (Hc y Hy)) as (? & ? & _ & Ly & Ry).
  rewrite Rx, Ry. rewrite Lx, Ly in E. now injection E as -> ->.
Qed.

Lemma sort_records_forallb (f : dict -> bool) (l : list dict) :
  forallb f l = true -> forallb f (sort_records l) = true.
Proof.
  rewrite !forallb_forall. intros H x Hx.
  apply H, (Permutation_in _ (sort_records_perm l)), Hx.
Qed.

(** C6 (as amended).  With refresh off, a prior catalog of records with
    string keys and fetched candidates with pairwise distinct keys, the
    run completes, and a second run that reads what the first one wrote,
    with the same fetch results and the same probe answers, produces the
    same output. *)
Theorem second_run_reproduces_output (env : environment) :
  well_formed_catalog (models_json env) = true ->
  refresh_caps env = false ->
  NoDup (map record_key (all_fetched_api_models env)) ->
  exists out,
    final_models_list env = Ok out /\
    final_models_list (with_catalog env out) = Ok out.
Proof.
  intros Hwf Hrefresh Hnd.
  destruct (final_models_list_well_formed env Hwf) as (ms & t1 & _ & Hms & _ & Hf1).
  destruct (as_dicts_well_formed ms Hms) as [_ Hkeys].
  pose proof (updated_entries env t1) as Hent.
  assert (Hother : forallb is_other (filter is_other (as_dicts ms)) = true)
    by apply forallb_filter.
  set (U := updated_managed_models_list env t1) in *.
  set (O := filter is_other (as_dicts ms)) in *.
  exists (sort_records (U ++ O)). split; [exact Hf1 |].
  assert (Hstr : forallb has_str_key (sort_records (U ++ O)) = true).
  { apply sort_records_forallb. rewrite forallb_app.
    apply andb_true_iff. split;
      [now apply forallb_Forall_entries | now apply forallb_filter_keep]. }
  assert (Hwf2 : well_formed_catalog
                   (models_json (with_catalog env (sort_records (U ++ O)))) = true).
  { unfold well_formed_catalog. rewrite with_catalog_load.
    now rewrite forallb_well_formed_map. }
  destruct (final_models_list_well_formed _ Hwf2) as (ms2 & t2 & Hl2 & _ & Ht2 & Hf2).
  rewrite with_catalog_load in Hl2. injection Hl2 as <-.
  rewrite Hf2. f_equal.
  rewrite as_dicts_map, with_catalog_updated.
  rewrite (filter_other_sort_records U O Hent Hother).
  rewrite <- (sort_records_resorted U O). f_equal. f_equal.
  (* the updated list of the second run is that of the first *)
  pose proof (all_fetched_candidates env) as Hc. rewrite Forall_forall in Hc.
  assert (HU : U = map (fun f => settle (enable_openai_probes env)
                                   (probe_openai_model_supports_image env)
                                   (merge_one (refresh_caps env) t1 f))
                     (all_fetched_api_models env))
    by now apply updated_distinct.
  rewrite (updated_distinct env t2 Hnd). rewrite HU at 1.
  apply map_ext_in. intros f Hf.
  set (u := settle _ _ (merge_one (refresh_caps env) t1 f)).
  assert (Hover : over f u) by (apply over_settle, over_merge_one, Hc, Hf).
  assert (HinU : In u U) by (rewrite HU; apply in_map_iff; now exists f).
  assert (Hlook : table_get (lookup_key f) t2 = Some u).
  { rewrite <- (over_value_key f u Hover).
    apply (table_from_unique (sort_records (U ++ O)) [] t2); try assumption.
    - assert (Hp : Permutation (filter is_managed (sort_records (U ++ O))) U).
      { rewrite (filter_perm is_managed _ _ (sort_records_perm (U ++ O))).
        rewrite filter_app.
        rewrite (filter_all is_managed U)
          by (intros x Hx; rewrite Forall_forall in Hent; now apply entry_is_managed, Hent).
        rewrite (filter_none is_managed O), app_nil_r; [reflexivity |].
        intros x Hx. now apply is_other_filter in Hx. }
      apply (Permutation_NoDup (Permutation_sym (Permutation_map str_key Hp))).
      apply (NoDup_map_transfer record_key str_key).
      + intros x y Hx Hy. rewrite Forall_forall in Hent.
        apply str_key_record_key; now apply entry_has_str_key, Hent.
      + unfold U. now rewrite updated_keys.
    - apply (Permutation_in _ (Permutation_sym (sort_records_perm (U ++ O)))).
      apply in_or_app. now left.
    - apply entry_is_managed. now apply (over_is_entry f). }
  unfold merge_one at 1. rewrite Hlook, Hrefresh.
  rewrite (preserve_flags_over f u Hover).
  unfold u. apply settle_idempotent.
  apply (over_is_entry f), over_merge_one, Hc, Hf.
Qed.

(** * Concrete runs *)

Ltac in_list := simpl; repeat (first [left; reflexivity | right]).

Ltac distinct_keys :=
  vm_compute; repeat (constructor; [simpl; intuition discriminate |]); constructor.

(** ** C1 *)

Lemma merge_first_match_preserves_flags_witness :
  existing_managed_models_from [VDict prior_gpt4o] [] = Ok table_gpt4o /\
  nth_error fetched_once 0 = Some candidate_gpt4o /\
  merged_at false fetched_once table_gpt4o 0 prior_gpt4o candidate_gpt4o.
Proof.
  split; [reflexivity |]. split; [reflexivity |].
  apply merge_first_match_preserves_flags.
  - apply transform_loop_candidates. in_list.
  - reflexivity.
  - reflexivity.
  - intros j g Hj. lia.
Defined.

(** The claim of C1 as it is stated, without "the first candidate with
    that key": the provider lists [gpt-4o] twice; the second candidate's
    key is in the existing managed set, refresh is off and the existing
    record defines [multiModal] as false, yet the record appended for it
    has the classifier's [multiModal], true. *)
Lemma duplicate_candidate_is_not_merged :
  existing_managed_models_from [VDict prior_gpt4o] [] = Ok table_gpt4o /\
  nth_error fetched_twice 1 = Some candidate_gpt4o /\
  table_get (lookup_key candidate_gpt4o) table_gpt4o = Some prior_gpt4o /\
  ~ merged_at false fetched_twice table_gpt4o 1 prior_gpt4o candidate_gpt4o.
Proof.
  split; [reflexivity |]. split; [reflexivity |]. split; [reflexivity |].
  intros (out & u & Hm & Hn & _ & _ & Hflags).
  vm_compute in Hm. injection Hm as <-.
  vm_compute in Hn. injection Hn as <-.
  specialize (Hflags "multiModal" (or_introl eq_refl)).
  vm_compute in Hflags. discriminate Hflags.
Qed.

(** ** C2 *)

Lemma fresh_managed_records_normalized_witness :
  reasoning_normalized (capabilities true false true false false false) /\
  final_models_list env_typical = Ok out_typical /\
  reasoning_normalized (nth 3 out_typical []).
Proof.
  split; [| split; [reflexivity |]].
  - apply (proj1 fresh_managed_records_normalized
             (VStr "dall-e-3") (VStr "DALL-E 3") (VStr "openai") None).
    reflexivity.
  - apply (proj2 fresh_managed_records_normalized env_typical out_typical).
    + reflexivity.
    + in_list.
    + reflexivity.
    + right. intros e He. vm_compute in He.
      destruct He as [<- | [<- | [<- | []]]]; vm_compute; discriminate.
Defined.

(** The claim of C2 as it is stated: a record merged with refresh off
    keeps the flags of the prior catalog, here no reasoning support
    together with advanced reasoning. *)
Lemma preserved_flags_are_not_normalized :
  final_models_list env_edited = Ok out_edited /\
  exists r, In r out_edited /\ ~ reasoning_normalized r.
Proof.
  split; [reflexivity |].
  exists (nth 0 out_edited []). split; [in_list |].
  intros H. specialize (H eq_refl). discriminate H.
Qed.

(** ** C3 *)

Lemma fetch_failure_keeps_transformed_prefix_witness :
  fails_after (raw_fetch_google env_typical) "Google Generative AI" "google"
    [candidate_gemini] /\
  fails_after (raw_fetch_anthropic env_typical) "Anthropic" "anthropic" [] /\
  fetch_and_transform_models (raw_fetch_google env_typical)
    "Google Generative AI" "google" = [candidate_gemini] /\
  all_fetched_api_models env_typical
  = fetch_and_transform_models (raw_fetch_google env_typical)
      "Google Generative AI" "google"
    ++ fetch_and_transform_models (raw_fetch_openai env_typical) "OpenAI" "openai"
    ++ [].
Proof.
  assert (Hg : fails_after (raw_fetch_google env_typical) "Google Generative AI"
                 "google" [candidate_gemini]).
  { apply (transform_raised _ _ _ [gemini_descriptor] [] [candidate_gemini]
             gemini_unnamed_descriptor AttributeError); reflexivity. }
  assert (Ha : fails_after (raw_fetch_anthropic env_typical) "Anthropic" "anthropic" []).
  { apply (fetch_raised _ _ _ (APIError "APIConnectionError")). reflexivity. }
  split; [exact Hg |]. split; [exact Ha |]. split.
  - apply (proj1 fetch_failure_keeps_transformed_prefix). exact Hg.
  - apply (proj2 (proj2 (proj2 fetch_failure_keeps_transformed_prefix))). exact Ha.
Defined.

(** The claim of C3 as it is stated: an error is raised while the second
    descriptor is transformed, and the step returns the candidate of the
    first, not the empty list. *)
Lemma transform_error_returns_partial_list :
  transform "Google Generative AI" "google" gemini_unnamed_descriptor
  = Raise AttributeError /\
  fetch_and_transform_models (raw_fetch_google env_typical)
    "Google Generative AI" "google" <> [].
Proof. split; [reflexivity | discriminate]. Qed.

(** ** C4 *)

Lemma run_completes_on_well_formed_catalog_witness :
  well_formed_catalog (models_json env_typical) = true /\
  exists final,
    final_models_list env_typical = Ok final /\
    main env_typical = Ok (if write_succeeds env_typical then Some final else None).
Proof.
  split; [reflexivity |].
  apply run_completes_on_well_formed_catalog. reflexivity.
Defined.

(** The claim of C4 as it is stated: a record without [providerId] makes
    the run end with an unhandled [KeyError]. *)
Lemma record_without_provider_id_raises :
  main env_malformed = Raise (KeyError "providerId") /\
  ~ exists written, main env_malformed = Ok written.
Proof. split; [reflexivity |]. intros [w H]. discriminate H. Qed.

(** ** C5 *)

Lemma stale_managed_records_dropped_witness :
  In prior_retired (prior_records env_typical) /\
  ~ In prior_retired out_typical /\
  forall o, In o out_typical -> record_key o <> record_key prior_retired.
Proof.
  split; [in_list |].
  apply (stale_managed_records_dropped env_typical out_typical prior_retired).
  - reflexivity.
  - in_list.
  - reflexivity.
  - intros f Hf. vm_compute in Hf.
    destruct Hf as [<- | [<- | [<- | []]]]; vm_compute; discriminate.
Defined.

(** ** C6 *)

Lemma second_run_reproduces_output_witness :
  exists out,
    final_models_list env_typical = Ok out /\
    final_models_list (with_catalog env_typical out) = Ok out.
Proof.
  apply second_run_reproduces_output.
  - reflexivity.
  - reflexivity.
  - distinct_keys.
Defined.

(** The claim of C6 as it is stated: when the provider lists a model
    twice, the first run keeps the preserved flags in the first of the
    two records, and the second run, which finds the other one in the
    catalog, does not. *)
Lemma duplicate_candidates_drift :
  refresh_caps env_duplicates = false /\
  final_models_list env_duplicates = Ok out_duplicates /\
  final_models_list (with_catalog env_duplicates out_duplicates) <> Ok out_duplicates.
Proof.
  split; [reflexivity |]. split; [reflexivity |].
  vm_compute. discriminate.
Qed.

(** ** C7 *)

Lemma other_provider_records_pass_through_witness :
  filter is_other (prior_records env_typical) = [prior_mistral] /\
  Permutation (filter is_other out_typical) (filter is_other (prior_records env_typical)).
Proof.
  split; [reflexivity |].
  apply other_provider_records_pass_through. reflexivity.
Defined.

(** ** C8 *)

Lemma output_keys_unique_witness : NoDup (map record_key out_typical).
Proof.
  apply (output_keys_unique env_typical out_typical).
  - reflexivity.
  - distinct_keys.
  - distinct_keys.
Defined.

(** The claim of C8 as it is stated: a provider that lists a model twice
    puts two records with the same key in the output. *)
Lemma duplicate_candidates_share_a_key :
  final_models_list env_duplicates = Ok out_duplicates /\
  ~ NoDup (map record_key out_duplicates).
Proof.
  split; [reflexivity |].
  intros H. vm_compute in H. apply NoDup_cons_iff in H.
  destruct H as [H _]. apply H. now left.
Qed.

(** ** C9 *)

Lemma output_sorted_by_provider_then_id_witness :
  exists out,
    final_models_list env_typical = Ok out /\
    forallb has_str_key out = true /\
    StronglySorted key_le out.
Proof. apply output_sorted_by_provider_then_id. reflexivity. Defined.

(** ** C10 *)

Lemma classifier_and_output_define_six_flags_witness :
  (exists caps,
      apply_heuristics_for_new_model (VStr "gpt-4o") (VStr "GPT 4O") (VStr "openai")
        None = Ok caps /\
      map fst caps = FLAGS /\
      Forall (fun kv => exists b, snd kv = VBool b) caps) /\
  (forall flag, In flag FLAGS -> dict_mem flag (nth 2 out_typical []) = true).
Proof.
  split.
  - apply (proj1 classifier_and_output_define_six_flags).
    right. now exists "GPT 4O".
  - apply (proj2 classifier_and_output_define_six_flags env_typical out_typical).
    + reflexivity.
    + in_list.
    + reflexivity.
Defined.

(** * More of the script *)

(** ** The classifier, rule by rule *)

Lemma to_lower_idempotent (c : ascii) : to_lower (to_lower c) = to_lower c.
Proof.
  destruct c as [b0 b1 b2 b3 b4 b5 b6 b7].
  destruct b0, b1, b2, b3, b4, b5, b6, b7; reflexivity.
Qed.

Lemma lower_idempotent (s : string) : lower (lower s) = lower s.
Proof.
  induction s as [| c s IH]; cbn [lower]; [reflexivity |].
  now rewrite to_lower_idempotent, IH.
Qed.

Lemma lower_empty (s : string) : String.eqb (lower s) "" = String.eqb s "".
Proof. now destruct s. Qed.

(** X1.  The classifier is case-insensitive: it gives the same result,
    or raises the same exception, on a model id and a display name and on
    their lower-case forms. *)
Theorem classifier_ignores_case (model_id : string) (display_name p : value)
  (api_data : option dict) :
  apply_heuristics_for_new_model (VStr model_id) display_name p api_data
  = apply_heuristics_for_new_model (VStr (lower model_id))
      (lower_value display_name) p api_data.
Proof.
  unfold apply_heuristics_for_new_model. cbn [as_str bind].
  rewrite lower_idempotent.
  destruct display_name as [| b | z | n | l | d]; cbn [lower_value];
    try (unfold py_or; destruct (truthy _); cbn [as_str bind];
         rewrite ?lower_idempotent; reflexivity).
  unfold py_or. cbn [truthy]. rewrite lower_empty.
  destruct (String.eqb n ""); cbn [negb as_str bind];
    now rewrite lower_idempotent.
Qed.

(** The classifier on a string id, once the two [lower()] calls are done. *)
Lemma apply_heuristics_rules (m dn p : value) (api : option dict) (caps : dict) :
  apply_heuristics_for_new_model m dn p api = Ok caps ->
  exists s n,
    m = VStr s /\ as_str (py_or dn m) = Ok n /\
    normalize
      (provider_rules p (lower s) (lower n)
         match api with Some d => d | None => [] end default_capabilities)
    = Ok caps.
Proof.
  unfold apply_heuristics_for_new_model. intros H.
  destruct m as [| | | s | |]; try discriminate H. cbn [as_str bind] in H.
  destruct (as_str (py_or dn (VStr s))) as [n |] eqn:Hn; [| discriminate H].
  cbn [bind] in H. now exists s, n.
Qed.

Ltac split_rules :=
  cbv zeta;
  repeat match goal with
    | |- context [if ?c then _ else _] => destruct c
    end.

(** X2.  In every result of the classifier [canSearch] and
    [canAccessInternet] are equal, and both are false for every provider
    but Google and Anthropic. *)
Theorem search_and_internet_go_together (m dn p : value) (api : option dict)
  (caps : dict) :
  apply_heuristics_for_new_model m dn p api = Ok caps ->
  dict_get "canSearch" caps = dict_get "canAccessInternet" caps /\
  (eq_str p "google" = false -> eq_str p "anthropic" = false ->
   dict_get "canSearch" caps = Some (VBool false)).
Proof.
  intros H. apply apply_heuristics_rules in H.
  destruct H as (s & n & _ & _ & H). revert H.
  unfold provider_rules, normalize.
  destruct (eq_str p "google").
  { unfold google_rules. split_rules; cbn; intros [= <-]; split;
      try reflexivity; discriminate. }
  destruct (eq_str p "openai").
  { unfold openai_rules. split_rules; cbn; intros [= <-]; split; reflexivity. }
  destruct (eq_str p "anthropic").
  { unfold anthropic_rules. split_rules; cbn; intros [= <-]; split;
      try reflexivity; discriminate. }
  cbn. intros [= <-]. split; reflexivity.
Qed.

Lemma prefix_trans (a b s : string) :
  prefix a b = true -> prefix b s = true -> prefix a s = true.
Proof.
  revert b s. induction a as [| x a IH]; intros b s Hab Hbs; [now destruct s |].
  destruct b as [| y b]; [discriminate Hab |].
  destruct s as [| z s]; [discriminate Hbs |].
  cbn [prefix] in *.
  destruct (ascii_dec x y) as [-> |]; [| discriminate Hab].
  destruct (ascii_dec y z) as [-> |]; [| discriminate Hbs].
  now apply IH with b.
Qed.

(** A string that contains [b] contains every prefix of [b]. *)
Lemma contains_prefix (a b s : string) :
  prefix a b = true -> contains b s = true -> contains a s = true.
Proof.
  intros Hab. induction s as [| c s IH]; cbn [contains]; intros H.
  - apply orb_true_iff in H. destruct H as [H | H]; [| discriminate H].
    now rewrite (prefix_trans a b "" Hab H).
  - apply orb_true_iff in H. destruct H as [H | H].
    + now rewrite (prefix_trans a b _ Hab H).
    + rewrite (IH H). apply orb_true_r.
Qed.

Lemma not_contains_prefix (a b s : string) :
  prefix a b = true -> contains a s = false -> contains b s = false.
Proof.
  intros Hab Ha. destruct (contains b s) eqn:Hb; [| reflexivity].
  now rewrite (contains_prefix a b s Hab Hb) in Ha.
Qed.

(** X3.  In every result of the classifier a model that can generate
    images is multimodal. *)
Theorem image_generation_implies_multimodal (m dn p : value) (api : option dict)
  (caps : dict) :
  apply_heuristics_for_new_model m dn p api = Ok caps ->
  dict_get "canGenerateImages" caps = Some (VBool true) ->
  dict_get "multiModal" caps = Some (VBool true).
Proof.
  intros H. apply apply_heuristics_rules in H.
  destruct H as (s & n & _ & _ & H). revert H.
  unfold provider_rules, normalize.
  destruct (eq_str p "google").
  { unfold google_rules.
    destruct (contains "gemini" (lower s)); cbn [orb andb];
      split_rules; cbn; intros [= <-]; cbn; try reflexivity; discriminate. }
  destruct (eq_str p "openai").
  { unfold openai_rules.
    destruct (startswith "dall-e" (lower s) || startswith "gpt-image" (lower s));
      split_rules; cbn; intros [= <-]; cbn; try reflexivity; discriminate. }
  destruct (eq_str p "anthropic").
  { unfold anthropic_rules.
    destruct (contains "claude-3" (lower s)) eqn:E.
    - split_rules; cbn; intros [= <-]; cbn; try reflexivity; discriminate.
    - rewrite (not_contains_prefix "claude-3" "claude-3-5-sonnet" _ eq_refl E).
      rewrite (not_contains_prefix "claude-3" "claude-3.7-sonnet" _ eq_refl E).
      cbn [orb andb].
      split_rules; cbn; intros [= <-]; cbn; try reflexivity; discriminate. }
  cbn. intros [= <-]. discriminate.
Qed.

(** X4.  The image families.  An OpenAI model whose id starts with
    [dall-e] or [gpt-image] (in any case) gets exactly: multimodal,
    generates images, no reasoning support, not an advanced reasoner, no
    search, no internet.  A Google model with [imagen] in its id is
    multimodal and generates images, and neither supports reasoning nor
    is an advanced reasoner, whatever else its id or name contains. *)
Theorem image_families_do_not_reason :
  (forall (model_id : string) (dn : value) (api : option dict),
      name_like dn ->
      startswith "dall-e" (lower model_id) || startswith "gpt-image" (lower model_id)
      = true ->
      apply_heuristics_for_new_model (VStr model_id) dn (VStr "openai") api
      = Ok (capabilities true false true false false false)) /\
  (forall (model_id : string) (dn : value) (api : option dict),
      name_like dn ->
      contains "imagen" (lower model_id) = true ->
      exists cs,
        apply_heuristics_for_new_model (VStr model_id) dn (VStr "google") api
        = Ok (capabilities true cs true false cs false)).
Proof.
  split; intros s dn api Hdn Hid; unfold apply_heuristics_for_new_model;
    destruct (as_str_py_or dn s Hdn) as [n Hn]; rewrite Hn; cbn [as_str bind];
    unfold provider_rules, normalize; cbn [eq_str py_eq String.eqb Ascii.eqb Bool.eqb].
  - unfold openai_rules. rewrite Hid. split_rules; reflexivity.
  - unfold google_rules. rewrite Hid. cbn [orb negb andb].
    split_rules; cbn; eexists; reflexivity.
Qed.


(** ** The transformation *)

(** X6.  A candidate the transformation builds has the four fields [id],
    [provider], [providerId], [name] followed by the classifier's flags,
    which overwrite none of them.  Its id is a string: the descriptor's
    id, or [unknown_<provider>_id] when the descriptor has none; its
    name is the derived name, and the classifier saw that name. *)
Theorem transform_fields (pn ps : string) (d c : dict) :
  transform pn ps d = Ok c ->
  exists i name caps,
    dict_get_default "id" (VStr ("unknown_" ++ ps ++ "_id")) d = VStr i /\
    derive_name ps (VStr i) (dict_get_default "displayName" (VStr i) d) = Ok name /\
    apply_heuristics_for_new_model (VStr i) name (VStr ps) (Some d) = Ok caps /\
    c = [("id", VStr i); ("provider", VStr pn); ("providerId", VStr ps); ("name", name)]
        ++ caps.
Proof.
  unfold transform.
  set (model_id := dict_get_default "id" _ d).
  destruct (derive_name ps model_id (dict_get_default "displayName" model_id d))
    as [name |] eqn:Hd; [| discriminate].
  cbn [bind].
  destruct (apply_heuristics_for_new_model model_id name (VStr ps) (Some d))
    as [caps |] eqn:Hc; [| discriminate].
  cbn [bind]. intros [= <-].
  destruct (apply_heuristics_inv _ _ _ _ _ Hc)
    as (i & mm & cs & gi & ar & ai & sr & Hi & -> & _).
  rewrite Hi in *. exists i, name, (capabilities mm cs gi ar ai sr).
  repeat split; try assumption.
Qed.







(** ** Runs without credentials, without a catalog, in refresh mode *)

Lemma raw_fetch_cannot {M : Type} (sdk : option (result (list M))) (has_key : bool)
  (descriptor : M -> dict) :
  cannot_fetch sdk has_key -> raw_fetch sdk has_key descriptor = Ok [].
Proof.
  intros [-> | ->]; unfold raw_fetch; [reflexivity |]. now destruct sdk.
Qed.

Lemma prior_records_load (env : environment) (ms : list value) :
  load_models (models_json env) = VList ms -> prior_records env = as_dicts ms.
Proof. unfold prior_records. now intros ->. Qed.

(** X9.  When no provider can be asked (for each one the SDK is missing
    or the key is unset or empty), a run on a well-formed catalog writes
    only the records of the other providers, sorted: every record of a
    managed provider is dropped. *)
Theorem no_credentials_keeps_only_other_providers (env : environment) :
  cannot_fetch (google_genai env) (has_api_key env "GOOGLE_API_KEY") ->
  cannot_fetch (OpenAI env) (has_api_key env "OPENAI_API_KEY") ->
  cannot_fetch (Anthropic env) (has_api_key env "CLAUDE_API_KEY") ->
  well_formed_catalog (models_json env) = true ->
  final_models_list env = Ok (sort_records (filter is_other (prior_records env))).
Proof.
  intros Hg Ho Ha Hwf.
  destruct (final_models_list_well_formed env Hwf) as (ms & t & Hl & _ & _ & ->).
  rewrite (prior_records_load env ms Hl).
  unfold updated_managed_models_list, all_fetched_api_models,
    fetch_and_transform_models, raw_fetch_google, raw_fetch_openai, raw_fetch_anthropic.
  rewrite (raw_fetch_cannot _ _ _ Hg), (raw_fetch_cannot _ _ _ Ho),
    (raw_fetch_cannot _ _ _ Ha).
  cbn [transform_loop app merge_candidates]. unfold probed_models.
  now destruct (enable_openai_probes env).
Qed.

Lemma merge_candidates_empty_table (refresh : bool) (fetched : list dict) :
  merge_candidates refresh fetched [] = fetched.
Proof. induction fetched as [| f rest IH]; cbn; [reflexivity | now rewrite IH]. Qed.

(** X10.  A first run: when the catalog file is missing or unreadable,
    is not an object, or has no models, the output is the fetched
    candidates with the classifier's flags (and the probe's answer, when
    probes are enabled), sorted; the refresh toggle plays no part. *)
Theorem empty_catalog_gives_fetched_candidates (env : environment) :
  load_models (models_json env) = VList [] ->
  final_models_list env
  = Ok (sort_records
          (probed_models (enable_openai_probes env)
             (probe_openai_model_supports_image env) (all_fetched_api_models env))).
Proof.
  intros Hl. unfold final_models_list. rewrite Hl. cbn [py_iter bind
    existing_managed_models_from other_provider_models_from].
  pose proof (all_fetched_candidates env) as Hc.
  rewrite (merge_models_candidates _ _ [] Hc). cbn [bind].
  rewrite merge_candidates_empty_table.
  assert (He : Forall is_entry (all_fetched_api_models env)).
  { eapply Forall_impl; [| exact Hc]. apply candidate_entry. }
  rewrite (probe_models_entries _ _ _ He). cbn [bind]. rewrite app_nil_r.
  apply sorted_str_keys, forallb_Forall_entries, probed_models_entries, He.
Qed.

Lemma merge_candidates_refresh (fetched : list dict) (t : table) :
  Forall is_candidate fetched -> merge_candidates true fetched t = fetched.
Proof.
  intros H. revert t. induction H as [| f rest Hf _ IH]; intros t; [reflexivity |].
  cbn [merge_candidates]. destruct (table_get _ t); rewrite IH;
    [now rewrite preserve_flags_refresh | reflexivity].
Qed.

(** X11.  In refresh mode the prior catalog has no say on the managed
    records: those of the output are the fetched candidates with the
    classifier's flags (and the probe's answer), whatever the catalog
    held for them. *)
Theorem refresh_discards_catalog_flags (env : environment) (out : list dict) :
  refresh_caps env = true ->
  final_models_list env = Ok out ->
  Permutation (filter is_managed out)
    (probed_models (enable_openai_probes env)
       (probe_openai_model_supports_image env) (all_fetched_api_models env)).
Proof.
  intros Hr H.
  destruct (final_models_list_stages env out H) as (ms & t & _ & _ & _ & Hs).
  apply sorted_perm in Hs. rewrite (filter_perm is_managed _ _ Hs).
  pose proof (updated_entries env t) as He.
  rewrite filter_app.
  rewrite (filter_none is_managed (filter is_other (as_dicts ms)))
    by (intros x Hx; now apply is_other_filter in Hx).
  rewrite app_nil_r, filter_all
    by (intros x Hx; rewrite Forall_forall in He; now apply entry_is_managed, He).
  unfold updated_managed_models_list.
  now rewrite Hr, merge_candidates_refresh by apply all_fetched_candidates.
Qed.

(** X12.  The output has one record per fetched candidate and one per
    other-provider record of the prior catalog, and no other. *)
Theorem output_count (env : environment) (out : list dict) :
  final_models_list env = Ok out ->
  List.length out
  = List.length (all_fetched_api_models env)
    + List.length (filter is_other (prior_records env)).
Proof.
  intros H.
  destruct (final_models_list_stages env out H) as (ms & t & Hms & _ & _ & Hs).
  rewrite (prior_records_iter env ms Hms).
  apply sorted_perm, Permutation_length in Hs. rewrite Hs, length_app. f_equal.
  rewrite <- (length_map record_key), updated_keys. apply length_map.
Qed.

(** ** The managed records of the output *)

Lemma updated_over (env : environment) (t : table) (r : dict) :
  In r (updated_managed_models_list env t) ->
  exists f, In f (all_fetched_api_models env) /\ over f r.
Proof.
  intros Hr. pose proof (all_fetched_candidates env) as Hc.
  rewrite Forall_forall in Hc.
  apply probed_models_In in Hr. destruct Hr as (u & Hu & Hr).
  apply merge_candidates_In in Hu. destruct Hu as (f & Hf & Hu).
  exists f. split; [exact Hf |].
  assert (Ho : over f u).
  { destruct Hu as [-> | (k & e & _ & _ & ->)];
      [apply over_candidate | apply over_preserve_flags]; now apply Hc. }
  destruct Hr as [-> | ->]; [exact Ho | now apply over_probed].
Qed.

Lemma over_fields (f r : dict) :
  over f r ->
  map fst r = SCHEMA_FIELDS /\
  forall k, ~ In k FLAGS -> dict_get k r = dict_get k f.
Proof.
  intros []. split; [reflexivity |].
  intros k Hk. cbn [dict_get schema_entry].
  repeat (destruct (String.eqb k _) eqn:?E;
          [ try reflexivity; exfalso; apply Hk; apply String.eqb_eq in E;
            subst k; unfold FLAGS; simpl; tauto | clear E ]).
  reflexivity.
Qed.

(** X13.  Every record of a managed provider in the output has exactly
    the ten fields of the schema, in their order, and takes every field
    that is not a flag ([id], [provider], [providerId], [name]) from a
    fetched candidate: a name edited in the catalog, or a field added to
    a managed record there, does not survive a run. *)
Theorem managed_records_have_the_schema_fields (env : environment)
  (out : list dict) (r : dict) :
  final_models_list env = Ok out ->
  In r out -> is_managed r = true ->
  map fst r = SCHEMA_FIELDS /\
  exists f, In f (all_fetched_api_models env) /\
    forall k, ~ In k FLAGS -> dict_get k r = dict_get k f.
Proof.
  intros H Hin Hman.
  destruct (final_managed_updated env out r H Hin Hman) as (ms & t & _ & _ & Hu).
  destruct (updated_over env t r Hu) as (f & Hf & Ho).
  destruct (over_fields f r Ho) as [Hfields Hget].
  split; [exact Hfields |]. now exists f.
Qed.

(** ** The probe *)

(** X14.  The probe of a record changes nothing but [multiModal], and
    that only to true: whatever the probe answers, every other field is
    as before, and the record is either untouched or has [multiModal]
    true.  A record whose [providerId] is not [openai], or whose id (in
    lower case) starts with none of [gpt-4o], [o], [gpt-5], is
    untouched. *)
Theorem probe_only_raises_multimodal (probe : value -> bool) (m m' : dict) :
  probe_model probe m = Ok m' ->
  (forall k, k <> "multiModal" -> dict_get k m' = dict_get k m) /\
  (m' = m \/ dict_get "multiModal" m' = Some (VBool true)) /\
  (dict_get "providerId" m <> Some (VStr "openai") -> m' = m) /\
  (forall i, dict_get "id" m = Some (VStr i) ->
             startswith "gpt-4o" (lower i) || startswith "o" (lower i)
             || startswith "gpt-5" (lower i) = false ->
             m' = m).
Proof.
  unfold probe_model, dict_get_default. intros H.
  assert (Hset : forall k, k <> "multiModal" ->
             dict_get k (dict_set "multiModal" (VBool true) m) = dict_get k m).
  { intros k Hk. rewrite dict_get_set.
    destruct (String.eqb k "multiModal") eqn:E; [| reflexivity].
    apply String.eqb_eq in E. contradiction. }
  assert (Htrue : dict_get "multiModal" (dict_set "multiModal" (VBool true) m)
                  = Some (VBool true)).
  { rewrite dict_get_set. now rewrite String.eqb_refl. }
  destruct (dict_get "providerId" m) as [p |] eqn:Hp.
  - destruct (py_eq p (VStr "openai")) eqn:Ep.
    + apply py_eq_str_r in Ep. subst p.
      destruct (dict_get "id" m) as [i |] eqn:Hi.
      * destruct i as [| b | z | s | l | d]; cbn [as_str bind] in H;
          try discriminate H.
        destruct (startswith "gpt-4o" (lower s) || startswith "o" (lower s)
                  || startswith "gpt-5" (lower s)) eqn:Epre.
        -- destruct (probe (VStr s)); injection H as <-.
           ++ repeat split; auto; [congruence |].
              intros i [= <-]. congruence.
           ++ repeat split; auto.
        -- injection H as <-. repeat split; auto.
      * cbn [as_str bind lower] in H. cbn in H. injection H as <-.
        repeat split; auto.
    + injection H as <-. repeat split; auto.
  - cbn [py_eq] in H. injection H as <-. repeat split; auto.
Qed.

Lemma probed_entry_accepts (probe : value -> bool) (u : dict) (i : string) :
  is_entry u ->
  dict_get "providerId" u = Some (VStr "openai") ->
  dict_get "id" u = Some (VStr i) ->
  startswith "gpt-4o" (lower i) || startswith "o" (lower i)
  || startswith "gpt-5" (lower i) = true ->
  probe (VStr i) = true ->
  dict_get "multiModal" (probed probe u) = Some (VBool true).
Proof.
  intros [i0 pn ps nm mm cs gi ar ai sr Hps] Hp Hi Hpre Hprobe.
  cbn in Hp, Hi. injection Hp as ->. injection Hi as ->.
  unfold probed, probe_model.
  set (r := schema_entry _ _ _ _ _ _ _ _ _ _).
  change (dict_get_default "providerId" VNone r) with (VStr "openai").
  change (dict_get_default "id" (VStr "") r) with (VStr i).
  change (dict_get "id" r) with (Some (VStr i)).
  cbn [as_str bind]. rewrite Hpre, Hprobe. reflexivity.
Qed.

(** X15.  With probes enabled, a positive probe wins over the catalog:
    an OpenAI record of the output whose id starts with [gpt-4o], [o] or
    [gpt-5] and for which the probe answers true has [multiModal] true,
    whatever the prior catalog preserved for it. *)
Theorem positive_probe_overrides_catalog (env : environment) (out : list dict)
  (r : dict) (i : string) :
  final_models_list env = Ok out ->
  enable_openai_probes env = true ->
  In r out ->
  dict_get "providerId" r = Some (VStr "openai") ->
  dict_get "id" r = Some (VStr i) ->
  startswith "gpt-4o" (lower i) || startswith "o" (lower i)
  || startswith "gpt-5" (lower i) = true ->
  probe_openai_model_supports_image env (VStr i) = true ->
  dict_get "multiModal" r = Some (VBool true).
Proof.
  intros H Hen Hin Hp Hi Hpre Hprobe.
  assert (Hman : is_managed r = true) by (unfold is_managed; now rewrite Hp).
  destruct (final_managed_updated env out r H Hin Hman) as (ms & t & _ & _ & Hu).
  unfold updated_managed_models_list, probed_models in Hu. rewrite Hen in Hu.
  apply in_map_iff in Hu. destruct Hu as (u & <- & Hu).
  assert (He : is_entry u).
  { pose proof (merge_candidates_entries (refresh_caps env) _ t
                  (all_fetched_candidates env)) as He.
    rewrite Forall_forall in He. now apply He. }
  rewrite probed_get in Hp, Hi by (assumption || discriminate).
  now apply probed_entry_accepts with i.
Qed.

(** ** The lookup table and the catalog *)

Lemma existing_managed_models_last (l1 l2 : list dict) (u : dict) (t0 t : table) :
  forallb has_str_key (l1 ++ u :: l2) = true ->
  is_managed u = true ->
  (forall v, In v l2 -> is_managed v = true -> str_key v <> str_key u) ->
  existing_managed_models_from (map VDict (l1 ++ u :: l2)) t0 = Ok t ->
  table_get (value_key u) t = Some u.
Proof.
  revert t0. induction l1 as [| x l1 IH]; intros t0 Hwf Hu Hlast Hb.
  - cbn [app] in *. cbn [forallb] in Hwf. apply andb_true_iff in Hwf.
    destruct Hwf as [Hk Hl2].
    rewrite (existing_managed_models_step u l2 t0 Hk), Hu in Hb.
    unfold value_key.
    rewrite (table_from_untouched l2 _ t _ _ Hl2 Hb).
    + apply table_get_set_same.
    + intros v Hv Hmv E. apply (Hlast v Hv Hmv). rewrite E. now destruct (str_key u).
  - cbn [app forallb] in Hwf. apply andb_true_iff in Hwf. destruct Hwf as [Hx Hrest].
    change ((x :: l1) ++ u :: l2) with (x :: (l1 ++ u :: l2)) in Hb.
    rewrite (existing_managed_models_step x _ t0 Hx) in Hb.
    now apply (IH _ Hrest Hu Hlast Hb).
Qed.

(** X16.  When the catalog holds several records of a managed provider
    with the same key, the table keeps the last one: looking the key up
    gives the record after which no record of the catalog has that key. *)
Theorem last_catalog_record_wins (l1 l2 : list dict) (u : dict) (p i : string)
  (t : table) :
  forallb has_str_key (l1 ++ u :: l2) = true ->
  dict_get "providerId" u = Some (VStr p) ->
  dict_get "id" u = Some (VStr i) ->
  In p managed_provider_ids ->
  (forall v, In v l2 -> record_key v <> record_key u) ->
  existing_managed_models_from (map VDict (l1 ++ u :: l2)) [] = Ok t ->
  table_get (VStr p, VStr i) t = Some u.
Proof.
  intros Hwf Hp Hi Hman Hlast Hb.
  assert (Hu : is_managed u = true).
  { unfold is_managed. rewrite Hp. unfold in_strs. apply existsb_exists.
    exists p. split; [exact Hman | now apply py_eq_str_r]. }
  assert (Hk : value_key u = (VStr p, VStr i)).
  { unfold value_key, str_key. now rewrite Hp, Hi. }
  rewrite <- Hk. apply (existing_managed_models_last l1 l2 u [] t); try assumption.
  intros v Hv _ E. apply (Hlast v Hv).
  rewrite forallb_app in Hwf. apply andb_true_iff in Hwf. destruct Hwf as [_ Hwf].
  cbn [forallb] in Hwf. apply andb_true_iff in Hwf. destruct Hwf as [Hku Hl2].
  rewrite forallb_forall in Hl2.
  apply str_key_record_key; auto.
Qed.

Lemma existing_managed_models_raises (pre post : list value) (bad : value)
  (e : exn) (t0 : table) :
  Forall (fun m => partition_error m = None) pre ->
  partition_error bad = Some e ->
  existing_managed_models_from (pre ++ bad :: post) t0 = Raise e.
Proof.
  intros Hpre Hbad. revert t0.
  induction Hpre as [| m pre Hm _ IH]; intros t0; cbn [app existing_managed_models_from].
  - destruct bad as [| | | | | d]; try (injection Hbad as <-; reflexivity).
    cbn [partition_error] in Hbad. unfold dict_item.
    destruct (dict_get "providerId" d) as [p |]; [| now injection Hbad as <-].
    cbn [bind]. destruct (in_strs p managed_provider_ids); [| discriminate Hbad].
    destruct (dict_get "id" d) as [i |]; [| now injection Hbad as <-].
    cbn [bind]. destruct (hashable i); [discriminate Hbad | now injection Hbad as <-].
  - destruct m as [| | | | | d]; try discriminate Hm.
    cbn [partition_error] in Hm. unfold dict_item.
    destruct (dict_get "providerId" d) as [p |]; [| discriminate Hm].
    cbn [bind]. destruct (in_strs p managed_provider_ids); [| apply IH].
    destruct (dict_get "id" d) as [i |]; [| discriminate Hm].
    cbn [bind]. destruct (hashable i); [apply IH | discriminate Hm].
Qed.

(** X17.  A malformed record stops the run before anything is fetched or
    written.  The first record of the catalog that is not an object
    ([TypeError]), has no [providerId] ([KeyError]), or belongs to a
    managed provider and has no [id] ([KeyError]) or an [id] that is a
    list or an object ([TypeError]) makes the run raise that exception:
    no output list is built and the catalog file is left as it was. *)
Theorem malformed_record_stops_the_run (env : environment) (pre post : list value)
  (bad : value) (e : exn) :
  py_iter (load_models (models_json env)) = Ok (pre ++ bad :: post) ->
  Forall (fun m => partition_error m = None) pre ->
  partition_error bad = Some e ->
  final_models_list env = Raise e /\ main env = Raise e.
Proof.
  intros Hl Hpre Hbad.
  assert (H : final_models_list env = Raise e).
  { unfold final_models_list. rewrite Hl. cbn [bind].
    now rewrite (existing_managed_models_raises pre post bad e [] Hpre Hbad). }
  split; [exact H |]. unfold main. now rewrite H.
Qed.

(** ** From the catalog to the output *)

Lemma over_record_key (f r : dict) : over f r -> record_key r = record_key f.
Proof. now intros []. Qed.

(** X18.  Hand corrections survive a run.  With refresh off, a catalog
    of records with string keys and fetched candidates with pairwise
    distinct keys: for the last record [e] the catalog holds for a
    fetched model, the output has a record with that key in which every
    flag that [e] defines has the value [e] gives it; the one exception
    is [multiModal], which a probe, when probes are enabled, may have
    turned to true. *)
Theorem hand_corrections_survive (env : environment) (out l1 l2 : list dict)
  (e f : dict) :
  well_formed_catalog (models_json env) = true ->
  refresh_caps env = false ->
  NoDup (map record_key (all_fetched_api_models env)) ->
  prior_records env = l1 ++ e :: l2 ->
  (forall v, In v l2 -> record_key v <> record_key e) ->
  In f (all_fetched_api_models env) ->
  record_key f = record_key e ->
  final_models_list env = Ok out ->
  exists r,
    In r out /\ record_key r = record_key e /\
    forall flag, In flag FLAGS -> dict_mem flag e = true ->
      dict_get flag r = dict_get flag e \/
      (flag = "multiModal" /\ enable_openai_probes env = true /\
       dict_get flag r = Some (VBool true)).
Proof.
  intros Hwf Hrefresh Hnd Hprior Hlast Hf Hkey Hout.
  destruct (final_models_list_well_formed env Hwf) as (ms & t & Hl & Hms & Ht & Hfinal).
  rewrite Hfinal in Hout. injection Hout as <-.
  rewrite (prior_records_load env ms Hl) in Hprior.
  destruct (as_dicts_well_formed ms Hms) as [Hmap Hkeys].
  rewrite Hmap, Hprior in Ht. rewrite Hprior in Hkeys.
  pose proof (all_fetched_candidates env) as Hc. rewrite Forall_forall in Hc.
  pose proof (Hc f Hf) as Hcf.
  destruct (candidate_record_key f Hcf) as (ps & i & Hps & Hlk & Hrk).
  assert (Hke : has_str_key e = true).
  { rewrite forallb_app in Hkeys. apply andb_true_iff in Hkeys.
    destruct Hkeys as [_ Hk]. cbn [forallb] in Hk.
    now apply andb_true_iff in Hk. }
  assert (Hvk : value_key e = lookup_key f).
  { rewrite Hlk. rewrite Hkey, (record_key_str_key e Hke) in Hrk.
    unfold value_key. now injection Hrk as -> ->. }
  assert (Hme : is_managed e = true).
  { rewrite <- (is_managed_record_key f e Hkey).
    now apply entry_is_managed, candidate_entry. }
  assert (Hlook : table_get (lookup_key f) t = Some e).
  { rewrite <- Hvk. apply (existing_managed_models_last l1 l2 e [] t); try assumption.
    intros v Hv _ E. apply (Hlast v Hv).
    rewrite forallb_app in Hkeys. apply andb_true_iff in Hkeys.
    destruct Hkeys as [_ Hk]. cbn [forallb] in Hk. apply andb_true_iff in Hk.
    destruct Hk as [_ Hl2]. rewrite forallb_forall in Hl2.
    apply str_key_record_key; auto. }
  set (m := preserve_flags false e f).
  set (r := settle (enable_openai_probes env) (probe_openai_model_supports_image env) m).
  assert (Hover : over f m) by now apply over_preserve_flags.
  assert (Hr : over f r) by now apply over_settle.
  exists r. split; [| split].
  - apply (Permutation_in _ (Permutation_sym (sort_records_perm _))).
    apply in_or_app. left. rewrite (updated_distinct env t Hnd).
    apply in_map_iff. exists f. split; [| exact Hf].
    unfold merge_one. now rewrite Hlook, Hrefresh.
  - now rewrite (over_record_key f r Hr).
  - intros flag Hflag Hdef.
    destruct (flags_merged_preserve false e f Hcf) as (_ & _ & Hflags).
    specialize (Hflags flag Hflag). rewrite Hdef in Hflags. cbn [negb andb] in Hflags.
    fold m in Hflags. unfold r, settle.
    destruct (enable_openai_probes env); [| now left].
    destruct (probe_model_entry (probe_openai_model_supports_image env) m
                (over_is_entry f m Hover)) as [_ [-> | ->]]; [now left |].
    rewrite dict_get_set. destruct (String.eqb flag "multiModal") eqn:E.
    + apply String.eqb_eq in E. right. auto.
    + now left.
Qed.

(** ** The provider branches in closed form *)





(** X20.  Google: the later rule wins.  Every model with [gemini] in its
    id is multimodal; and a model with [flash] in its id and neither
    [2.5] nor [exp] is not an advanced reasoner, also when [pro],
    [ultra], [gemini-1.5] or the pattern of the earlier rule match. *)
Theorem gemini_flash_is_not_advanced (model_id : string) (dn : value)
  (api : option dict) (caps : dict) :
  apply_heuristics_for_new_model (VStr model_id) dn (VStr "google") api = Ok caps ->
  (contains "gemini" (lower model_id) = true ->
   dict_get "multiModal" caps = Some (VBool true)) /\
  (contains "flash" (lower model_id) = true ->
   contains "2.5" (lower model_id) = false ->
   contains "exp" (lower model_id) = false ->
   dict_get "isAdvancedReasoner" caps = Some (VBool false)).
Proof.
  intros H. apply apply_heuristics_rules in H.
  destruct H as (s & n & [= <-] & _ & H). revert H.
  unfold provider_rules, normalize, google_rules.
  cbn [eq_str py_eq String.eqb Ascii.eqb Bool.eqb].
  split.
  - intros Hg. revert H. rewrite Hg. cbn [orb andb].
    split_rules; cbn; intros [= <-]; reflexivity.
  - intros Hf H25 Hexp. revert H. rewrite Hf, H25, Hexp. cbn [orb andb negb].
    split_rules; cbn; intros [= <-]; reflexivity.
Qed.

(** A string that contains [b] contains every string [b] contains. *)
Lemma contains_of_prefix (a b s : string) :
  contains a b = true -> prefix b s = true -> contains a s = true.
Proof.
  revert s. induction b as [| c b IH]; intros s Hab Hbs.
  - cbn in Hab. apply orb_true_iff in Hab. destruct Hab as [Hab | Hab]; [| discriminate].
    destruct a; [| discriminate Hab]. now destruct s.
  - destruct s as [| z s]; [discriminate Hbs |].
    cbn [prefix] in Hbs. destruct (ascii_dec c z) as [<- |]; [| discriminate Hbs].
    cbn [contains] in Hab |- *. apply orb_true_iff in Hab. destruct Hab as [Hab | Hab].
    + assert (Hp : prefix (String c b) (String c s) = true).
      { cbn [prefix]. destruct (ascii_dec c c) as [_ | Hn]; [exact Hbs | now contradiction Hn]. }
      now rewrite (prefix_trans a _ _ Hab Hp).
    + rewrite (IH s Hab Hbs). apply orb_true_r.
Qed.

Lemma contains_trans (a b s : string) :
  contains a b = true -> contains b s = true -> contains a s = true.
Proof.
  intros Hab. induction s as [| c s IH]; cbn [contains]; intros H;
    apply orb_true_iff in H; destruct H as [H | H].
  - exact (contains_of_prefix a b "" Hab H).
  - discriminate H.
  - exact (contains_of_prefix a b _ Hab H).
  - change (contains a (String c s)) with (prefix a (String c s) || contains a s).
    rewrite (IH H). apply orb_true_r.
Qed.

(** X21.  The Anthropic branch in closed form: multimodal when the id
    contains [claude-3]; an advanced reasoner when it contains [opus],
    or [sonnet] together with [claude-3] (the rule for [haiku] and
    [instant] changes nothing); search, internet and image generation
    all three when it contains [claude-3-5-sonnet] or
    [claude-3.7-sonnet]; reasoning always supported. *)
Theorem anthropic_closed_form (model_id : string) (dn : value) (api : option dict) :
  name_like dn ->
  let id_l := lower model_id in
  let tools := contains "claude-3-5-sonnet" id_l || contains "claude-3.7-sonnet" id_l in
  apply_heuristics_for_new_model (VStr model_id) dn (VStr "anthropic") api
  = Ok (capabilities (contains "claude-3" id_l) tools tools
          (contains "opus" id_l || contains "sonnet" id_l && contains "claude-3" id_l)
          tools true).
Proof.
  intros Hdn id_l tools. subst tools.
  unfold apply_heuristics_for_new_model.
  destruct (as_str_py_or dn model_id Hdn) as [n Hn]. rewrite Hn. cbn [as_str bind].
  fold id_l. unfold provider_rules, normalize, anthropic_rules.
  cbn [eq_str py_eq String.eqb Ascii.eqb Bool.eqb].
  destruct (contains "claude-3-5-sonnet" id_l) eqn:E35.
  { rewrite (contains_trans "claude-3" "claude-3-5-sonnet" id_l eq_refl E35),
      (contains_trans "sonnet" "claude-3-5-sonnet" id_l eq_refl E35).
    cbn [orb andb]. rewrite !orb_true_r. reflexivity. }
  destruct (contains "claude-3.7-sonnet" id_l) eqn:E37.
  { rewrite (contains_trans "claude-3" "claude-3.7-sonnet" id_l eq_refl E37),
      (contains_trans "sonnet" "claude-3.7-sonnet" id_l eq_refl E37).
    cbn [orb andb]. rewrite !orb_true_r. reflexivity. }
  cbn [orb].
  destruct (contains "claude-3" id_l), (contains "opus" id_l),
    (contains "sonnet" id_l); cbn [orb andb]; split_rules; reflexivity.
Qed.

(** ** Derived names *)

Lemma contains_single (c : ascii) (s : string) :
  contains (String c "") s = negb (free_of c s).
Proof.
  induction s as [| x s IH]; [reflexivity |].
  cbn [contains free_of prefix]. rewrite IH.
  destruct (ascii_dec c x) as [<- | Hn].
  - rewrite Ascii.eqb_refl. now destruct s.
  - destruct (Ascii.eqb x c) eqn:E; [| reflexivity].
    apply Ascii.eqb_eq in E. now contradiction Hn.
Qed.

Lemma free_of_append (c : ascii) (a b : string) :
  free_of c (a ++ b) = free_of c a && free_of c b.
Proof.
  induction a as [| x a IH]; [reflexivity |].
  cbn [append free_of]. rewrite IH. apply andb_assoc.
Qed.

(** Replacing brings in the characters of the replacement only. *)
Lemma replace_from_free (c : ascii) (old new s : string) (k : nat) :
  free_of c new = true -> free_of c s = true ->
  free_of c (replace_from old new s k) = true.
Proof.
  intros Hnew. revert k. induction s as [| x s IH]; intros k Hs; [reflexivity |].
  cbn [free_of] in Hs. apply andb_true_iff in Hs. destruct Hs as [Hx Hs].
  cbn [replace_from]. destruct k as [| k]; [| now apply IH].
  destruct (prefix old (String x s)).
  - rewrite free_of_append, Hnew. now apply IH.
  - cbn [free_of]. rewrite Hx. now apply IH.
Qed.

(** Replacing a character takes out every occurrence of it. *)
Lemma replace_single_free (c : ascii) (new s : string) :
  free_of c new = true -> free_of c (replace (String c "") new s) = true.
Proof.
  intros Hnew. unfold replace. induction s as [| x s IH]; [reflexivity |].
  cbn [replace_from prefix String.length Nat.sub].
  destruct (ascii_dec c x) as [<- | Hn].
  - assert (Hp : prefix "" s = true) by now destruct s.
    rewrite Hp, free_of_append, Hnew. exact IH.
  - cbn [free_of]. rewrite IH, andb_true_r.
    destruct (Ascii.eqb x c) eqn:E; [| reflexivity].
    apply Ascii.eqb_eq in E. now contradiction Hn.
Qed.

Lemma case_keeps_hyphen (x : ascii) :
  Ascii.eqb (to_upper x) "-" = Ascii.eqb x "-" /\
  Ascii.eqb (to_lower x) "-" = Ascii.eqb x "-" /\
  Ascii.eqb (to_upper x) "_" = Ascii.eqb x "_" /\
  Ascii.eqb (to_lower x) "_" = Ascii.eqb x "_".
Proof.
  destruct x as [b0 b1 b2 b3 b4 b5 b6 b7].
  destruct b0, b1, b2, b3, b4, b5, b6, b7; repeat split; reflexivity.
Qed.

Lemma title_from_free (c : ascii) (b : bool) (s : string) :
  c = "-"%char \/ c = "_"%char ->
  free_of c (title_from b s) = free_of c s.
Proof.
  intros Hc. revert b. induction s as [| x s IH]; intros b; [reflexivity |].
  destruct (case_keeps_hyphen x) as (H1 & H2 & H3 & H4).
  cbn [title_from free_of].
  destruct (is_lower x); [| destruct (is_upper x)]; cbn [free_of]; rewrite IH;
    destruct b; try reflexivity; destruct Hc as [-> | ->];
    rewrite ?H1, ?H2, ?H3, ?H4; reflexivity.
Qed.

(** X22.  A derived name has no separators left.  For an OpenAI model
    whose display name is its id and whose id does not start with
    [dall-e], the name contains neither a hyphen nor an underscore; for
    a Google model whose id starts with [models/], the name built from
    the display name contains no hyphen. *)
Theorem derived_names_have_no_separators :
  (forall i : string,
      startswith "dall-e" i = false ->
      exists name,
        derive_name "openai" (VStr i) (VStr i) = Ok (VStr name) /\
        contains "-" name = false /\ contains "_" name = false) /\
  (forall i dn : string,
      startswith "models/" i = true ->
      exists name,
        derive_name "google" (VStr i) (VStr dn) = Ok (VStr name) /\
        contains "-" name = false).
Proof.
  split.
  - intros i Hd. unfold derive_name. cbn [String.eqb Ascii.eqb Bool.eqb as_str bind].
    rewrite Hd. cbn [negb andb py_eq]. rewrite String.eqb_refl.
    eexists. split; [reflexivity |].
    set (base := title (replace "_" " " (replace "-" " " i))).
    assert (Hh : free_of "-" base = true).
    { unfold base, title. rewrite title_from_free by now left.
      apply replace_from_free; [reflexivity |]. now apply replace_single_free. }
    assert (Hu : free_of "_" base = true).
    { unfold base, title. rewrite title_from_free by now right.
      now apply replace_single_free. }
    assert (Hfree : forall c, free_of c "GPT" = true -> free_of c DALL_E = true ->
                              free_of c base = true ->
              free_of c
                (let name := if contains "Gpt" base then replace "Gpt" "GPT" base else base in
                 if contains " Dall E" name then replace " Dall E" DALL_E name else name)
              = true).
    { intros c Hg Hde Hb. cbv zeta.
      assert (Hn : free_of c (if contains "Gpt" base
                              then replace "Gpt" "GPT" base else base) = true).
      { destruct (contains "Gpt" base); [now apply replace_from_free | exact Hb]. }
      destruct (contains " Dall E" _); [now apply replace_from_free | exact Hn]. }
    split; rewrite contains_single; apply negb_false_iff, Hfree;
      try reflexivity; assumption.
  - intros i dn Hm. unfold derive_name. cbn [String.eqb Ascii.eqb Bool.eqb as_str bind].
    rewrite Hm. eexists. split; [reflexivity |].
    rewrite contains_single. apply negb_false_iff.
    unfold title. rewrite title_from_free by now left.
    now apply replace_single_free.
Qed.

(** ** A record that fails in the sort *)

Lemma partition_total (ms : list value) (t0 : table) :
  Forall (fun m => partition_error m = None) ms ->
  (exists t, existing_managed_models_from ms t0 = Ok t) /\
  other_provider_models_from ms = Ok (filter is_other (as_dicts ms)) /\
  Forall (fun o => dict_mem "providerId" o = true) (as_dicts ms).
Proof.
  intros H. revert t0. induction H as [| m ms Hm _ IH]; intros t0.
  - split; [now exists t0 |]. split; [reflexivity | constructor].
  - destruct m as [| | | | | d]; try discriminate Hm.
    cbn [partition_error] in Hm.
    change (as_dicts (VDict d :: ms)) with (d :: as_dicts ms).
    cbn [existing_managed_models_from other_provider_models_from filter].
    unfold is_other at 1, is_managed, dict_item.
    destruct (dict_get "providerId" d) as [p |] eqn:Hd; [| discriminate Hm].
    cbn [bind].
    assert (Hmem : dict_mem "providerId" d = true) by (unfold dict_mem; now rewrite Hd).
    destruct (IH t0) as (_ & -> & Hp). cbn [bind].
    destruct (in_strs p managed_provider_ids).
    + destruct (dict_get "id" d) as [i |]; [| discriminate Hm]. cbn [bind].
      destruct (hashable i); [| discriminate Hm].
      destruct (IH (table_set (p, i) d t0)) as (Ht & _ & _).
      split; [exact Ht |]. split; [reflexivity | now constructor].
    + destruct (IH t0) as (Ht & _ & _).
      split; [exact Ht |]. split; [reflexivity | now constructor].
Qed.

Lemma mapM_app_raise {A B : Type} (f : A -> result B) (pre post : list A) (x : A)
  (e : exn) :
  (forall a, In a pre -> exists b, f a = Ok b) ->
  f x = Raise e ->
  mapM f (pre ++ x :: post) = Raise e.
Proof.
  intros Hpre Hx. induction pre as [| a pre IH]; cbn [app mapM].
  - now rewrite Hx.
  - destruct (Hpre a (or_introl eq_refl)) as [b ->]. cbn [bind].
    rewrite IH; [reflexivity |]. intros a' Ha'. apply Hpre. now right.
Qed.

(** X23.  A record of another provider without an [id] passes the
    partition and fails in the sort, after the fetch: when every record
    of the catalog passes the partition and the first other-provider
    record without an [id] is reached, the sort key raises
    [KeyError('id')], the run ends with it and nothing is written. *)
Theorem other_record_without_id_fails_in_the_sort (env : environment)
  (ms : list value) (o_pre o_post : list dict) (bad : dict) :
  py_iter (load_models (models_json env)) = Ok ms ->
  Forall (fun m => partition_error m = None) ms ->
  filter is_other (as_dicts ms) = o_pre ++ bad :: o_post ->
  Forall (fun o => dict_mem "id" o = true) o_pre ->
  dict_get "id" bad = None ->
  final_models_list env = Raise (KeyError "id") /\ main env = Raise (KeyError "id").
Proof.
  intros Hl Hms Hothers Hpre Hbad.
  assert (H : final_models_list env = Raise (KeyError "id")).
  { unfold final_models_list. rewrite Hl. cbn [bind].
    destruct (partition_total ms [] Hms) as ([t ->] & -> & Hp). cbn [bind].
    pose proof (all_fetched_candidates env) as Hc.
    rewrite (merge_models_candidates _ _ t Hc). cbn [bind].
    rewrite probe_models_entries by now apply merge_candidates_entries.
    cbn [bind]. fold (updated_managed_models_list env t).
    unfold sorted. fold with_key. rewrite Hothers, app_assoc.
    assert (Hin : forall o, In o (o_pre ++ bad :: o_post) ->
                            dict_mem "providerId" o = true).
    { intros o Ho. rewrite <- Hothers in Ho. apply filter_In in Ho.
      rewrite Forall_forall in Hp. now apply Hp. }
    rewrite (mapM_app_raise with_key _ o_post bad (KeyError "id")); [reflexivity | |].
    - intros a Ha. apply in_app_or in Ha. destruct Ha as [Ha | Ha].
      + pose proof (updated_entries env t) as He. rewrite Forall_forall in He.
        rewrite (with_key_str a); [eauto |]. now apply entry_has_str_key, He.
      + assert (Hpa : dict_mem "providerId" a = true)
          by (apply Hin, in_or_app; now left).
        rewrite Forall_forall in Hpre. specialize (Hpre a Ha).
        unfold with_key, sort_key, dict_item. unfold dict_mem in Hpa, Hpre.
        destruct (dict_get "providerId" a); [| discriminate Hpa].
        destruct (dict_get "id" a); [| discriminate Hpre].
        cbn [bind]. eauto.
    - assert (Hpb : dict_mem "providerId" bad = true)
        by (apply Hin, in_or_app; right; now left).
      unfold with_key, sort_key, dict_item. unfold dict_mem in Hpb.
      destruct (dict_get "providerId" bad); [| discriminate Hpb].
      now rewrite Hbad. }
  split; [exact H |]. unfold main. now rewrite H.
Qed.

(** * More concrete runs *)

Lemma search_and_internet_go_together_witness :
  dict_get "canSearch" (capabilities true true true true true true)
  = dict_get "canAccessInternet" (capabilities true true true true true true) /\
  (eq_str (VStr "google") "google" = false ->
   eq_str (VStr "google") "anthropic" = false ->
   dict_get "canSearch" (capabilities true true true true true true)
   = Some (VBool false)).
Proof.
  apply (search_and_internet_go_together (VStr "models/gemini-1.5-pro")
           (VStr "Gemini 1.5 Pro") (VStr "google") (Some gemini_descriptor)).
  reflexivity.
Defined.

Lemma image_generation_implies_multimodal_witness :
  dict_get "multiModal" (capabilities true false true false false false)
  = Some (VBool true).
Proof.
  apply (image_generation_implies_multimodal (VStr "dall-e-3") (VStr "dall-e-3")
           (VStr "openai") None); reflexivity.
Defined.

Lemma image_families_do_not_reason_witness :
  apply_heuristics_for_new_model (VStr "DALL-E-3") VNone (VStr "openai") None
  = Ok (capabilities true false true false false false) /\
  exists cs,
    apply_heuristics_for_new_model (VStr "models/imagen-3.0-generate-002")
      (VStr "Imagen 3.0") (VStr "google") None
    = Ok (capabilities true cs true false cs false).
Proof.
  split.
  - apply (proj1 image_families_do_not_reason); [now left | reflexivity].
  - apply (proj2 image_families_do_not_reason); [right; now eexists | reflexivity].
Defined.


Lemma transform_fields_witness :
  exists i name caps,
    dict_get_default "id" (VStr ("unknown_" ++ "openai" ++ "_id")) gpt4o_descriptor
    = VStr i /\
    derive_name "openai" (VStr i)
      (dict_get_default "displayName" (VStr i) gpt4o_descriptor) = Ok name /\
    apply_heuristics_for_new_model (VStr i) name (VStr "openai")
      (Some gpt4o_descriptor) = Ok caps /\
    candidate_gpt4o
    = [("id", VStr i); ("provider", VStr "OpenAI"); ("providerId", VStr "openai");
       ("name", name)] ++ caps.
Proof. apply (transform_fields "OpenAI" "openai" gpt4o_descriptor). reflexivity. Defined.



Lemma no_credentials_keeps_only_other_providers_witness :
  final_models_list env_no_keys = Ok [prior_mistral] /\
  final_models_list env_no_keys
  = Ok (sort_records (filter is_other (prior_records env_no_keys))).
Proof.
  split; [reflexivity |].
  apply no_credentials_keeps_only_other_providers;
    try (right; reflexivity); try (left; reflexivity); reflexivity.
Defined.

Lemma empty_catalog_gives_fetched_candidates_witness :
  final_models_list env_first_run
  = Ok (sort_records
          (probed_models (enable_openai_probes env_first_run)
             (probe_openai_model_supports_image env_first_run)
             (all_fetched_api_models env_first_run))).
Proof. apply empty_catalog_gives_fetched_candidates. reflexivity. Defined.

Lemma refresh_discards_catalog_flags_witness :
  dict_get "multiModal" prior_gpt4o = Some (VBool false) /\
  filter is_managed out_refresh = [candidate_gpt4o] /\
  Permutation (filter is_managed out_refresh)
    (probed_models (enable_openai_probes env_refresh)
       (probe_openai_model_supports_image env_refresh)
       (all_fetched_api_models env_refresh)).
Proof.
  split; [reflexivity |]. split; [reflexivity |].
  apply refresh_discards_catalog_flags; reflexivity.
Defined.

Lemma output_count_witness :
  List.length out_typical
  = List.length (all_fetched_api_models env_typical)
    + List.length (filter is_other (prior_records env_typical)).
Proof. apply output_count. reflexivity. Defined.

Lemma managed_records_have_the_schema_fields_witness :
  map fst (nth 2 out_typical []) = SCHEMA_FIELDS /\
  exists f, In f (all_fetched_api_models env_typical) /\
    forall k, ~ In k FLAGS -> dict_get k (nth 2 out_typical []) = dict_get k f.
Proof.
  apply (managed_records_have_the_schema_fields env_typical out_typical).
  - reflexivity.
  - in_list.
  - reflexivity.
Defined.

Lemma probe_only_raises_multimodal_witness :
  probe_model (fun _ => true) candidate_gpt4o = Ok candidate_gpt4o_probed /\
  (forall k, k <> "multiModal" ->
             dict_get k candidate_gpt4o_probed = dict_get k candidate_gpt4o) /\
  (candidate_gpt4o_probed = candidate_gpt4o \/
   dict_get "multiModal" candidate_gpt4o_probed = Some (VBool true)) /\
  (dict_get "providerId" candidate_gpt4o <> Some (VStr "openai") ->
   candidate_gpt4o_probed = candidate_gpt4o) /\
  (forall i, dict_get "id" candidate_gpt4o = Some (VStr i) ->
             startswith "gpt-4o" (lower i) || startswith "o" (lower i)
             || startswith "gpt-5" (lower i) = false ->
             candidate_gpt4o_probed = candidate_gpt4o).
Proof.
  split; [reflexivity |].
  apply (probe_only_raises_multimodal (fun _ => true)). reflexivity.
Defined.

Lemma positive_probe_overrides_catalog_witness :
  dict_get "multiModal" (nth 3 out_typical []) = Some (VBool true).
Proof.
  apply (positive_probe_overrides_catalog env_typical out_typical _ "gpt-5").
  - reflexivity.
  - reflexivity.
  - in_list.
  - reflexivity.
  - reflexivity.
  - reflexivity.
  - reflexivity.
Defined.

Lemma last_catalog_record_wins_witness :
  table_get (VStr "openai", VStr "gpt-4o") table_twice = Some prior_gpt4o_edited.
Proof.
  apply (last_catalog_record_wins [prior_gpt4o] [prior_mistral] prior_gpt4o_edited).
  - reflexivity.
  - reflexivity.
  - reflexivity.
  - in_list.
  - intros v [<- | []]. discriminate.
  - reflexivity.
Defined.

Lemma malformed_record_stops_the_run_witness :
  final_models_list env_malformed = Raise (KeyError "providerId") /\
  main env_malformed = Raise (KeyError "providerId").
Proof.
  apply (malformed_record_stops_the_run env_malformed []
           [] (VDict [("id", VStr "gpt-4o"); ("name", VStr "GPT-4o")])).
  - reflexivity.
  - constructor.
  - reflexivity.
Defined.

Lemma hand_corrections_survive_witness :
  exists r,
    In r out_typical /\ record_key r = record_key prior_gpt4o /\
    forall flag, In flag FLAGS -> dict_mem flag prior_gpt4o = true ->
      dict_get flag r = dict_get flag prior_gpt4o \/
      (flag = "multiModal" /\ enable_openai_probes env_typical = true /\
       dict_get flag r = Some (VBool true)).
Proof.
  apply (hand_corrections_survive env_typical out_typical [prior_mistral]
           [prior_retired] prior_gpt4o candidate_gpt4o).
  - reflexivity.
  - reflexivity.
  - distinct_keys.
  - reflexivity.
  - intros v [<- | []]. discriminate.
  - in_list.
  - reflexivity.
  - reflexivity.
Defined.


Lemma gemini_flash_is_not_advanced_witness :
  contains "gemini-1.5" "models/gemini-1.5-flash" = true /\
  dict_get "multiModal" (capabilities true true false false true true)
  = Some (VBool true) /\
  dict_get "isAdvancedReasoner" (capabilities true true false false true true)
  = Some (VBool false).
Proof.
  split; [reflexivity |].
  destruct (gemini_flash_is_not_advanced "models/gemini-1.5-flash"
              (VStr "Gemini 1.5 Flash") (Some (google_descriptor flash_model))
              (capabilities true true false false true true) eq_refl) as [H1 H2].
  split; [apply H1 | apply H2]; reflexivity.
Defined.

Lemma anthropic_closed_form_witness :
  apply_heuristics_for_new_model (VStr "claude-3-haiku-20240307")
    (VStr "Claude 3 Haiku") (VStr "anthropic") None
  = Ok (capabilities true false false false false true).
Proof.
  apply (anthropic_closed_form "claude-3-haiku-20240307" (VStr "Claude 3 Haiku") None).
  right. now eexists.
Defined.

Lemma derived_names_have_no_separators_witness :
  (exists name,
      derive_name "openai" (VStr "gpt-4o_mini-tts") (VStr "gpt-4o_mini-tts")
      = Ok (VStr name) /\
      contains "-" name = false /\ contains "_" name = false) /\
  (exists name,
      derive_name "google" (VStr "models/gemini-1.5-pro") (VStr "models/gemini-1.5-pro")
      = Ok (VStr name) /\
      contains "-" name = false).
Proof.
  split.
  - apply (proj1 derived_names_have_no_separators). reflexivity.
  - apply (proj2 derived_names_have_no_separators). reflexivity.
Defined.

Lemma other_record_without_id_fails_in_the_sort_witness :
  final_models_list env_other_without_id = Raise (KeyError "id") /\
  main env_other_without_id = Raise (KeyError "id").
Proof.
  apply (other_record_without_id_fails_in_the_sort env_other_without_id
           (map VDict [prior_mistral; prior_unnamed_other; prior_gpt4o])
           [prior_mistral] [] prior_unnamed_other).
  - reflexivity.
  - repeat constructor.
  - reflexivity.
  - repeat constructor.
  - reflexivity.
Defined.
